(** * QueryResultTable: row-index reconciliation of the editable result grid

    Shallow embedding of
    [src/renderer/screens/DatabaseScreen/QueryResultViewer/QueryResultTable.tsx].

    Conventions of the embedding:
    - a JS number that holds an index, a count or a pixel size is a [Z];
      the source computes with doubles, whose sums, differences and
      products are exact as long as the result is a safe integer
      ([safe_integer], at most [2^53 - 1] in absolute value); the one
      place where the source can produce [-Infinity] ([Math.max()] of no
      arguments) uses the extended type [num];
    - a JS string is a [string], one character per UTF-16 code unit, so
      that [String.length] is the source's [.length];
    - a JS object used as a dictionary is an ordinary object: a
      [gmap string _] of its own properties, behind which a read finds
      the members that every object inherits from [Object.prototype];
      reading any other missing key gives [undefined];
    - an exception thrown by the source is a value [Throw _];
    - [headers] and [result] are arrays, as the property types say, so
      the [No result] branch is not taken; a [useMemo] value is the value
      its function computes from the inputs of the current render;
    - calls on the collaborators of the component (change collector, cell
      manager, cell controllers) are threaded through a small state monad
      that also records every call in a log. *)

From stdpp Require Import base option list strings gmap.
From Stdlib Require Import ZArith Lia.

Local Open Scope Z_scope.

(** ** JavaScript values *)

Inductive JsValue : Type :=
| VUndefined
| VNull
| VBool (b : bool)
| VNumber (n : Z)
| VString (s : string)
| VObject
| VFunction.

(** [v === undefined || v === null], the test made by [??]. *)
Definition nullish (v : JsValue) : bool :=
  match v with VUndefined | VNull => true | _ => false end.

(** [a ?? b] *)
Definition nullish_coalesce (a b : JsValue) : JsValue :=
  if nullish a then b else a.

(** The property names that an ordinary object inherits from
    [Object.prototype]. *)
Definition Object_prototype_keys : list string :=
  [ "constructor"; "__defineGetter__"; "__defineSetter__"; "hasOwnProperty";
    "__lookupGetter__"; "__lookupSetter__"; "isPrototypeOf";
    "propertyIsEnumerable"; "toString"; "valueOf"; "__proto__";
    "toLocaleString" ].

(** What reading one of them gives: [__proto__] is the prototype object,
    the others are functions; any other name is [undefined]. *)
Definition Object_prototype_get (k : string) : JsValue :=
  if bool_decide (k ∈ Object_prototype_keys)
  then (if bool_decide (k = "__proto__") then VObject else VFunction)
  else VUndefined.

(** [o[k]] on a dictionary object: the own property if there is one,
    else the inherited member. *)
Definition obj_get (o : gmap string JsValue) (k : string) : JsValue :=
  match o !! k with
  | Some v => v
  | None => Object_prototype_get k
  end.

(** The integers on which the arithmetic of the source is exact. *)
Definition safe_integer (x : Z) : Prop :=
  - 9007199254740991 ≤ x ≤ 9007199254740991.

Inductive JsError : Type := RangeError | TypeError.

Inductive Exc (A : Type) : Type :=
| Return (a : A)
| Throw (e : JsError).
Arguments Return {A} a.
Arguments Throw {A} e.

Definition exc_bind {A B} (m : Exc A) (k : A → Exc B) : Exc B :=
  match m with Return a => k a | Throw e => Throw e end.

(** ** Arrays *)

(** [a[i]] for a number [i]: [undefined] (here [None]) outside the array. *)
Definition array_get {A} (a : list A) (i : Z) : option A :=
  if i <? 0 then None else a !! Z.to_nat i.

(** The greatest length of an array, [2^32 - 1]. *)
Definition max_array_length : Z := 4294967295.

(** [new Array(n)]: a length that is negative or above [2^32 - 1] throws
    a RangeError; the slots of the fresh array are holes, which only
    [fill] gives a value. *)
Definition new_Array (n : Z) : Exc (list JsValue) :=
  if (n <? 0) || (max_array_length <? n) then Throw RangeError
  else Return (replicate (Z.to_nat n) VUndefined).

(** [a.fill(v)] *)
Definition fill {A B} (v : B) (a : list A) : list B :=
  replicate (length a) v.

(** [a.map((x, idx) => f x idx)] *)
Definition map_idx {A B} (f : A → Z → B) (a : list A) : list B :=
  imap (λ i x, f x (Z.of_nat i)) a.

(** [a.findIndex(p)]: the first index whose element satisfies [p], and
    [-1] when there is none. *)
Fixpoint findIndex_from {A} (p : A → bool) (a : list A) (i : Z) : Z :=
  match a with
  | [] => -1
  | x :: a' => if p x then i else findIndex_from p a' (i + 1)
  end.

Definition findIndex {A} (p : A → bool) (a : list A) : Z :=
  findIndex_from p a 0.

(** ** Data model *)

Module ResultRow.
(** [{ data: Record<string, unknown>; rowIndex: number }] *)
Record t : Type := mk {
  data : gmap string JsValue;
  rowIndex : Z
}.
End ResultRow.

(** [header.schema], as far as the component reads it. *)
Record HeaderSchema : Type := {
  table : option string;
  primaryKey : bool
}.

(** [QueryResultHeader], as far as the component reads it: [type] is
    [header.type.type]. *)
Record QueryResultHeader : Type := {
  name : string;
  type : string;
  schema : option HeaderSchema
}.

(** ** The derived values of one render *)

(** [newRowsIndex]: [new Array(newRowCount).fill(0).map((_, idx) => idx)] *)
Definition newRowsIndex (newRowCount : Z) : Exc (list Z) :=
  exc_bind (new_Array newRowCount) (λ a,
  Return (map_idx (λ _ idx, idx) (fill 0 a))).

(** [headers.reduce((prev, header) => ({ ...prev, [header.name]: undefined }), {})] *)
Definition unsetData (headers : list QueryResultHeader) : gmap string JsValue :=
  foldl (λ prev header, <[name header := VUndefined]> prev) ∅ headers.

(** [data]: the synthetic new rows, then the fetched rows. *)
Definition data (headers : list QueryResultHeader) (result : list ResultRow.t)
    (newRowCount : Z) : Exc (list ResultRow.t) :=
  exc_bind (new_Array newRowCount) (λ a,
  let newRows :=
    map_idx (λ _ newRowIndex,
      {| ResultRow.rowIndex := - (newRowIndex + 1);
         ResultRow.data := unsetData headers |}) (fill false a) in
  Return (newRows ++ result)).

(** The synthetic rows of a render with [n] new rows. *)
Definition newRowsOf (headers : list QueryResultHeader) (n : Z) : list ResultRow.t :=
  map_idx (λ _ newRowIndex,
    {| ResultRow.rowIndex := - (newRowIndex + 1);
       ResultRow.data := unsetData headers |})
    (fill false (replicate (Z.to_nat n) VUndefined)).

(** ** Header metadata: the initial column width *)

(** A JS number of the width computation: an integer, or the [-Infinity]
    that [Math.max()] gives for an empty sample. *)
Inductive num : Type :=
| NegInf
| Fin (z : Z).

(** [Math.max(a, b)] *)
Definition Math_max (a b : num) : num :=
  match a, b with
  | NegInf, _ => b
  | _, NegInf => a
  | Fin x, Fin y => Fin (Z.max x y)
  end.

(** [Math.min(a, b)] *)
Definition Math_min (a b : num) : num :=
  match a, b with
  | NegInf, _ | _, NegInf => NegInf
  | Fin x, Fin y => Fin (Z.min x y)
  end.

(** [Math.max(...xs)] *)
Definition Math_max_spread (xs : list Z) : num :=
  foldl (λ acc x, Math_max acc (Fin x)) NegInf xs.

(** [a * k] for a positive integer constant [k]. *)
Definition num_times (a : num) (k : Z) : num :=
  match a with NegInf => NegInf | Fin x => Fin (x * k) end.

(** [a.slice(0, n)] *)
Definition slice0 {A} (n : nat) (a : list A) : list A := take n a.

(** The callback of the sample: the length of a string value, [10] for
    anything else. *)
Definition sampleLength (header : QueryResultHeader) (r : ResultRow.t) : Z :=
  let v := obj_get (ResultRow.data r) (name header) in
  match v with
  | VString s => Z.of_nat (String.length s)
  | _ => 10
  end.

Definition getInitialSizeByHeaderType (result : list ResultRow.t)
    (header : QueryResultHeader) : num :=
  if bool_decide (type header = "number") then Fin 100
  else if bool_decide (type header = "string")
          || bool_decide (type header = "decimal") then
    let maxLength :=
      Math_max_spread (sampleLength header <$> slice0 100 result) in
    Math_max (Fin 150) (Math_min (Fin 500) (num_times maxLength 8))
  else Fin 150.

Module GridHeader.
(** One entry of [headerMemo]; [icon] tells whether the key icon is set. *)
Record t : Type := mk {
  name : string;
  resizable : bool;
  icon : bool;
  initialSize : num
}.
End GridHeader.

Definition initialSize (result : list ResultRow.t) (header : QueryResultHeader) : num :=
  Math_max (Fin (Z.of_nat (String.length (name header)) * 10))
           (getInitialSizeByHeaderType result header).

Definition headerMemo (headers : list QueryResultHeader) (result : list ResultRow.t)
    : list GridHeader.t :=
  (λ header,
     {| GridHeader.name := name header;
        GridHeader.resizable := true;
        GridHeader.icon :=
          match schema header with Some s => primaryKey s | None => false end;
        GridHeader.initialSize := initialSize result header |}) <$> headers.

(** ** Editability *)

(** Modelled from the spec: [getUpdatableTable] of
    [libs/GenerateSqlFromChanges] is not part of the sources at hand.  The
    spec describes it as an opaque boolean lookup keyed by table name,
    computed per header from the schema of the current database, in which
    a header without a resolvable table is not editable and a table that
    the schema map does not know is read-only.  A database schema is
    therefore a map from table names to their updatable flag. *)
Definition resolvableTable (header : QueryResultHeader) : option string :=
  s ← schema header;
  t ← table s;
  if bool_decide (t = "") then None else Some t.

(** Modelled from the spec: see [resolvableTable]. *)
Definition getUpdatableTable (headers : list QueryResultHeader)
    (dbSchema : option (gmap string bool)) : gmap string bool :=
  foldl (λ acc header,
    match resolvableTable header with
    | Some t =>
        match dbSchema ≫= (λ s, s !! t) with
        | Some true => <[t := true]> acc
        | _ => acc
        end
    | None => acc
    end) ∅ headers.

(** [updatableTables]: [headers] is an array and so always truthy;
    [currentDatabase] is falsy when it is absent or the empty string. *)
Definition updatableTables (headers : list QueryResultHeader)
    (schemaMap : option (gmap string (gmap string bool)))
    (currentDatabase : option string) : gmap string bool :=
  match currentDatabase, schemaMap with
  | Some db, Some sch =>
      if bool_decide (db = "") then ∅
      else getUpdatableTable headers (sch !! db)
  | _, _ => ∅
  end.

(** [headers[x]?.schema?.table || ''] for a header that exists. *)
Definition tableKey (header : QueryResultHeader) : string :=
  match schema header with
  | Some s =>
      match table s with
      | Some t => if bool_decide (t = "") then "" else t
      | None => ""
      end
  | None => ""
  end.

(** ** The cell render callback *)

Module TableCell.
(** The properties handed to one [<TableCell />]. *)
Record props : Type := mk {
  key : Z;
  value : JsValue;
  header : QueryResultHeader;
  col : Z;
  row : Z;
  readOnly : bool
}.
End TableCell.

Inductive Renderable : Type :=
| Fragment                              (* [<></>] *)
| TableCellElement (p : TableCell.props).

(** Whether [updatableTables[key]] is truthy: the own entry if the map
    has one, else the member inherited from [Object.prototype], which is
    a function or an object and so truthy. *)
Definition updatable_entry_truthy (upd : gmap string bool) (key : string) : bool :=
  match upd !! key with
  | Some b => b
  | None => bool_decide (key ∈ Object_prototype_keys)
  end.

(** [renderCell]: [d] is the memoised [data] and [upd] the memoised
    [updatableTables] that the callback closes over. *)
Definition renderCell (headers : list QueryResultHeader) (d : list ResultRow.t)
    (upd : gmap string bool) (y x : Z) : Exc Renderable :=
  match array_get d y with
  | Some r =>
      match array_get headers x with
      | Some h =>
          Return (TableCellElement
            {| TableCell.key := ResultRow.rowIndex r;
               TableCell.value := obj_get (ResultRow.data r) (name h);
               TableCell.header := h;
               TableCell.col := x;
               TableCell.row := ResultRow.rowIndex r;
               TableCell.readOnly :=
                 negb (updatable_entry_truthy upd (tableKey h)) |})
      | None => Throw TypeError
      end
  | None => Return Fragment
  end.

(** ** Display positions of the removed rows *)

(** [relativeRemoveRowsIndex] *)
Definition relativeRemoveRowsIndex (removeRowsIndex : list Z) (d : list ResultRow.t)
    : list JsValue :=
  (λ removeIndex,
     nullish_coalesce
       (VNumber (findIndex (λ r, ResultRow.rowIndex r =? removeIndex) d))
       (VNumber 0)) <$> removeRowsIndex.

(** ** The collaborators and the calls made on them *)

Module Change.
(** One pending cell edit: [{ col, value }]. *)
Record col_t : Type := mkCol {
  col : Z;
  value : JsValue
}.
(** The pending edits of one row: [{ row, cols }]. *)
Record t : Type := mk {
  row : Z;
  cols : list col_t
}.
End Change.

(** The change collector, the cell manager and the cell controllers are
    not part of this component.  Their state is an abstract [World]; the
    handle of a mounted cell controller is a [Cell]. *)
Class Collaborators (World Cell : Type) : Type := {
  collector_createNewRow : World → World;
  collector_removeRow : Z → World → World;
  collector_getNewRowCount : World → Z;
  collector_getRemovedRowsIndex : World → list Z;
  collector_getChanges : World → list Change.t;
  collector_getChangesCount : World → Z;
  collector_clear : World → World;
  cellManager_get : Z → Z → World → option Cell;
  cellManager_getFocusCell : World → option Cell;
  cell_insert : Cell → JsValue → World → World;
  cell_copy : Cell → World → World;
  cell_paste : Cell → World → World;
  cell_discard : Cell → World → World
}.

(** A call made by a click handler, with what a lookup returned. *)
Inductive Call (Cell : Type) : Type :=
| CreateNewRow
| RemoveRow (logicalRowIndex : Z)
| GetChanges
| Clear
| CellGet (row col : Z) (found : option Cell)
| CellInsert (c : Cell) (v : JsValue)
| CellCopy (c : Cell)
| CellPaste (c : Cell)
| CellDiscard (c : Cell).
Arguments CreateNewRow {Cell}.
Arguments RemoveRow {Cell} logicalRowIndex.
Arguments GetChanges {Cell}.
Arguments Clear {Cell}.
Arguments CellGet {Cell} row col found.
Arguments CellInsert {Cell} c v.
Arguments CellCopy {Cell} c.
Arguments CellPaste {Cell} c.
Arguments CellDiscard {Cell} c.

(** A handler is a state transformer on the world and the log of calls. *)
Definition Handler (World Cell A : Type) : Type :=
  World * list (Call Cell) → A * (World * list (Call Cell)).

Definition h_ret {World Cell A} (a : A) : Handler World Cell A :=
  λ s, (a, s).

Definition h_bind {World Cell A B} (m : Handler World Cell A)
    (k : A → Handler World Cell B) : Handler World Cell B :=
  λ s, let '(a, s') := m s in k a s'.

#[global] Instance handler_ret {World Cell} : MRet (Handler World Cell) :=
  λ A a, h_ret a.
#[global] Instance handler_bind {World Cell} : MBind (Handler World Cell) :=
  λ A B k m, h_bind m k.

(** A call that changes the world. *)
Definition act {World Cell} (c : Call Cell) (f : World → World)
    : Handler World Cell unit :=
  λ '(w, log), (tt, (f w, log ++ [c])).

(** A call that reads the world. *)
Definition ask {World Cell A} (f : World → A) (c : A → Call Cell)
    : Handler World Cell A :=
  λ '(w, log), (f w, (w, log ++ [c (f w)])).

(** [for (const x of xs) body] *)
Fixpoint for_of {World Cell A} (xs : list A) (body : A → Handler World Cell unit)
    : Handler World Cell unit :=
  match xs with
  | [] => h_ret tt
  | x :: xs' => body x ;; for_of xs' body
  end.

(** The world and the log after running a handler from an empty log. *)
Definition run {World Cell A} (m : Handler World Cell A) (w : World)
    : World * list (Call Cell) :=
  snd (m (w, [])).

Definition calls {World Cell A} (m : Handler World Cell A) (w : World)
    : list (Call Cell) :=
  snd (run m w).

(** ** The context menu *)

Module MenuItem.
(** One entry of the context menu; [disabled] is [None] where the
    source leaves the property out. *)
Record t (World Cell : Type) : Type := mk {
  text : string;
  destructive : bool;
  disabled : option bool;
  hotkey : option string;
  separator : bool;
  onClick : Handler World Cell unit
}.
Arguments mk {World Cell}.
Arguments text {World Cell}.
Arguments destructive {World Cell}.
Arguments disabled {World Cell}.
Arguments hotkey {World Cell}.
Arguments separator {World Cell}.
Arguments onClick {World Cell}.

(** The entry cannot be invoked: its [disabled] property is truthy. *)
Definition is_disabled {World Cell} (i : t World Cell) : bool :=
  default false (disabled i).
End MenuItem.

Section Handlers.
Context {World Cell : Type} `{!Collaborators World Cell}.

(** The display position to logical identity conversion of the
    [Remove selected rows] handler. *)
Definition removeRowArgument (newRowCount page pageSize selectedRowIndex : Z) : Z :=
  if selectedRowIndex - newRowCount <? 0
  then selectedRowIndex - newRowCount
  else selectedRowIndex - newRowCount + page * pageSize.

Definition onClick_insertNewRow : Handler World Cell unit :=
  act CreateNewRow collector_createNewRow.

Definition onClick_removeSelectedRows (selectedRowsIndex : list Z)
    (newRowCount page pageSize : Z) : Handler World Cell unit :=
  for_of selectedRowsIndex (λ selectedRowIndex,
    let i := removeRowArgument newRowCount page pageSize selectedRowIndex in
    act (RemoveRow i) (collector_removeRow i)).

(** [selectedCell?.insert(null)] *)
Definition onClick_insertNull (selectedCell : option Cell)
    : Handler World Cell unit :=
  match selectedCell with
  | Some c => act (CellInsert c VNull) (cell_insert c VNull)
  | None => h_ret tt
  end.

(** [selectedCell?.copy()] *)
Definition onClick_copy (selectedCell : option Cell) : Handler World Cell unit :=
  match selectedCell with
  | Some c => act (CellCopy c) (cell_copy c)
  | None => h_ret tt
  end.

(** [selectedCell?.paste()] *)
Definition onClick_paste (selectedCell : option Cell) : Handler World Cell unit :=
  match selectedCell with
  | Some c => act (CellPaste c) (cell_paste c)
  | None => h_ret tt
  end.

(** The body of the inner loop of [Discard All Changes]: look the cell
    up and discard it if it is mounted. *)
Definition discard_cell (row : Z) (col : Change.col_t) : Handler World Cell unit :=
  cell ← ask (cellManager_get row (Change.col col)) (CellGet row (Change.col col));
  match cell with
  | Some c => act (CellDiscard c) (cell_discard c)
  | None => h_ret tt
  end.

Definition onClick_discardAllChanges : Handler World Cell unit :=
  rows ← ask collector_getChanges (λ _, GetChanges);
  for_of rows (λ row,
    for_of (Change.cols row) (discard_cell (Change.row row))) ;;
  act Clear collector_clear.

(** [Discard All Changes] as the specification words it, over the flat
    list of pending edits: for every pending edit look up its cell
    controller and, if it is mounted, discard it.  The result is the world
    after these discards and the calls made. *)
Fixpoint discard_edits_spec (es : list (Z * Z)) (w : World)
    : World * list (Call Cell) :=
  match es with
  | [] => (w, [])
  | (row, col) :: es' =>
      match cellManager_get row col w with
      | Some c =>
          let '(w', log) := discard_edits_spec es' (cell_discard c w) in
          (w', CellGet row col (Some c) :: CellDiscard c :: log)
      | None =>
          let '(w', log) := discard_edits_spec es' w in
          (w', CellGet row col None :: log)
      end
  end.

(** Two worlds have the same cells mounted. *)
Definition same_registry (w w' : World) : Prop :=
  ∀ row col : Z, cellManager_get row col w' = cellManager_get row col w.

(** The callback given to [useContextMenu], run in the world [w] with
    the state and properties of the current render. *)
Definition contextMenu (w : World) (selectedRowsIndex : list Z)
    (newRowCount page pageSize : Z) : list (MenuItem.t World Cell) :=
  let selectedCell := cellManager_getFocusCell w in
  [ MenuItem.mk "Insert new row" false None None false
      onClick_insertNewRow;
    MenuItem.mk "Remove selected rows" true
      (Some (bool_decide (length selectedRowsIndex = 0%nat))) None true
      (onClick_removeSelectedRows selectedRowsIndex newRowCount page pageSize);
    MenuItem.mk "Insert NULL" false
      (Some (negb (bool_decide (is_Some selectedCell)))) None true
      (onClick_insertNull selectedCell);
    MenuItem.mk "Copy" false
      (Some (negb (bool_decide (is_Some selectedCell)))) (Some "Ctrl + C") false
      (onClick_copy selectedCell);
    MenuItem.mk "Paste" false
      (Some (negb (bool_decide (is_Some selectedCell)))) (Some "Ctrl + V") true
      (onClick_paste selectedCell);
    MenuItem.mk "Discard All Changes" true
      (Some (bool_decide (collector_getChangesCount w = 0))) None false
      onClick_discardAllChanges ].
End Handlers.

(** ** The component *)

#[global] Instance exc_ret : MRet Exc := λ A a, Return a.
#[global] Instance exc_mbind : MBind Exc := λ A B k m, exc_bind m k.

Module State.
(** The three [useState] cells of the component. *)
Record t : Type := mk {
  newRowCount : Z;
  selectedRowsIndex : list Z;
  removeRowsIndex : list Z
}.

Definition initial : t := mk 0 [] [].
End State.

(** The subscriber registered with the collector. *)
Definition onChangeUpdate {World Cell} `{!Collaborators World Cell}
    (w : World) (st : State.t) : State.t :=
  {| State.newRowCount := collector_getNewRowCount w;
     State.selectedRowsIndex := State.selectedRowsIndex st;
     State.removeRowsIndex := collector_getRemovedRowsIndex w |}.

Definition handleSelectedRowsChange (selectedRows : list Z) (st : State.t)
    : State.t :=
  {| State.newRowCount := State.newRowCount st;
     State.selectedRowsIndex := selectedRows;
     State.removeRowsIndex := State.removeRowsIndex st |}.

Module OptimizeTable.
(** What one render hands to the grid widget. *)
Record props : Type := mk {
  headers : list GridHeader.t;
  data : list ResultRow.t;
  renderCell : Z → Z → Exc Renderable;
  newRowsIndex : list Z;
  removedRowsIndex : list JsValue;
  selectedRowsIndex : list Z
}.
End OptimizeTable.

(** One render of [QueryResultTable] with arrays for [headers] and
    [result]. *)
Definition QueryResultTable (headers : list QueryResultHeader)
    (result : list ResultRow.t)
    (schemaMap : option (gmap string (gmap string bool)))
    (currentDatabase : option string) (st : State.t)
    : Exc OptimizeTable.props :=
  idx ← newRowsIndex (State.newRowCount st);
  d ← data headers result (State.newRowCount st);
  let upd := updatableTables headers schemaMap currentDatabase in
  Return
    {| OptimizeTable.headers := headerMemo headers result;
       OptimizeTable.data := d;
       OptimizeTable.renderCell := renderCell headers d upd;
       OptimizeTable.newRowsIndex := idx;
       OptimizeTable.removedRowsIndex :=
         relativeRemoveRowsIndex (State.removeRowsIndex st) d;
       OptimizeTable.selectedRowsIndex := State.selectedRowsIndex st |}.

(** ** The display index of the specification *)

(** [displayIndexOf] as section 4.1 of the specification words it. *)
Definition displayIndexOf_spec (newRowCount logicalRowIndex : Z) : Z :=
  if 0 <=? logicalRowIndex
  then newRowCount + logicalRowIndex
  else - logicalRowIndex - 1.

(** The fetched rows are numbered by their position in [result]. *)
Definition numbered_by_position (result : list ResultRow.t) : Prop :=
  ∀ (j : nat) (r : ResultRow.t), result !! j = Some r → ResultRow.rowIndex r = Z.of_nat j.

(** ** A small collector and cell manager to run the handlers on *)

Module Demo.
(** A cell controller is named by its coordinates. *)
Definition Cell : Type := Z * Z.

Record World : Type := mkWorld {
  created : Z;
  removed : list Z;
  changes : list Change.t;
  mounted : list Cell;
  focus : option Cell;
  discarded : list Cell
}.

Definition removeRow (i : Z) (w : World) : World :=
  mkWorld (created w)
    (if bool_decide (i ∈ removed w) then removed w else removed w ++ [i])
    (changes w) (mounted w) (focus w) (discarded w).

Definition get (row col : Z) (w : World) : option Cell :=
  if bool_decide ((row, col) ∈ mounted w) then Some (row, col) else None.

Definition discard (c : Cell) (w : World) : World :=
  mkWorld (created w) (removed w) (changes w) (mounted w) (focus w)
    (discarded w ++ [c]).

Definition changesCount (w : World) : Z :=
  Z.of_nat (length (mjoin (Change.cols <$> changes w))).

#[global] Instance collaborators : Collaborators World Cell := {|
  collector_createNewRow w :=
    mkWorld (created w + 1) (removed w) (changes w) (mounted w) (focus w)
      (discarded w);
  collector_removeRow := removeRow;
  collector_getNewRowCount := created;
  collector_getRemovedRowsIndex := removed;
  collector_getChanges := changes;
  collector_getChangesCount := changesCount;
  collector_clear w := mkWorld 0 [] [] (mounted w) (focus w) (discarded w);
  cellManager_get := get;
  cellManager_getFocusCell := focus;
  cell_insert c v w := w;
  cell_copy c w := w;
  cell_paste c w := w;
  cell_discard := discard
|}.

Definition header (n ty : string) : QueryResultHeader :=
  {| name := n; type := ty; schema := None |}.

Definition fetched (i : Z) : ResultRow.t :=
  {| ResultRow.data := {[ "id" := VNumber i ]}; ResultRow.rowIndex := i |}.

(** Three fetched rows numbered 0, 1, 2. *)
Definition result3 : list ResultRow.t := [fetched 0; fetched 1; fetched 2].

(** Two pending edits on row 0 and one on row 7; only the cells (0, 1)
    and (7, 0) are mounted. *)
Definition w0 : World :=
  mkWorld 1 []
    [ Change.mk 0 [Change.mkCol 0 (VString "a"); Change.mkCol 1 VNull];
      Change.mk 7 [Change.mkCol 0 (VNumber 3)] ]
    [(0, 1); (7, 0)] None [].

(** The world [w0] with the cell (7, 0) focused. *)
Definition w1 : World :=
  mkWorld (created w0) (removed w0) (changes w0) (mounted w0) (Some (7, 0))
    (discarded w0).

Definition sixty : string :=
  "012345678901234567890123456789012345678901234567890123456789".

(** A result over the updatable table [orders] of the database [shop],
    with one column that comes from no table. *)
Definition shopSchema : gmap string (gmap string bool) :=
  {[ "shop" := {[ "orders" := true; "audit" := false ]} ]}.

Definition ordersHeaders : list QueryResultHeader :=
  [ {| name := "id"; type := "number";
       schema := Some {| table := Some "orders"; primaryKey := true |} |};
    {| name := "total"; type := "decimal"; schema := None |} ].

(** A column of a table that is named like a member of every object. *)
Definition constructorHeaders : list QueryResultHeader :=
  [ {| name := "id"; type := "number";
       schema := Some {| table := Some "constructor"; primaryKey := false |} |} ].

(** A fetched row without a value for the column [toString]. *)
Definition toStringHeaders : list QueryResultHeader :=
  [ {| name := "toString"; type := "string"; schema := None |} ].

Definition textRow (s : string) : ResultRow.t :=
  {| ResultRow.data := {[ "title" := VString s ]}; ResultRow.rowIndex := 0 |}.
End Demo.

(** [L] is the greatest element of [xs]. *)
Definition is_greatest (L : Z) (xs : list Z) : Prop :=
  L ∈ xs ∧ ∀ x, x ∈ xs → x ≤ L.

(** ** Reading the log of [Discard All Changes] *)

(** The pending edits of a snapshot, row by row, as (row, col) pairs. *)
Definition edits (changes : list Change.t) : list (Z * Z) :=
  changes ≫= λ row, (λ col, (Change.row row, Change.col col)) <$> Change.cols row.

(** The calls that belong to one cell lookup: the lookup itself and, when
    it found a mounted cell, the discard on that cell. *)
Definition lookup_calls {Cell} (l : Z * Z * option Cell) : list (Call Cell) :=
  CellGet l.1.1 l.1.2 l.2 ::
  match l.2 with
  | Some c => [CellDiscard c]
  | None => []
  end.

Definition is_Clear {Cell} (c : Call Cell) : bool :=
  match c with Clear => true | _ => false end.

(** ** The component when [headers] or [result] is missing *)

(** What a render returns: the [No result] placeholder or the grid. *)
Inductive Rendered : Type :=
| NoResult
| Grid (p : OptimizeTable.props).

(** The [data] memo when [headers] or [result] may be [undefined]: the
    callback of [map] calls [headers.reduce] once per new row, and the
    array literal spreads [result]; either throws a TypeError on
    [undefined]. *)
Definition data_guarded (headers : option (list QueryResultHeader))
    (result : option (list ResultRow.t)) (newRowCount : Z)
    : Exc (list ResultRow.t) :=
  a ← new_Array newRowCount;
  newRows ←
    match headers with
    | Some hs =>
        Return (map_idx (λ _ newRowIndex,
                  {| ResultRow.rowIndex := - (newRowIndex + 1);
                     ResultRow.data := unsetData hs |}) (fill false a))
    | None =>
        match fill false a with
        | [] => Return []
        | _ :: _ => Throw TypeError
        end
    end;
  match result with
  | Some rs => Return (newRows ++ rs)
  | None => Throw TypeError
  end.

(** One render, with the guard [if (!headers || !result)] that follows
    the memos of [newRowsIndex], [data] and [updatableTables]. *)
Definition QueryResultTable_guarded (headers : option (list QueryResultHeader))
    (result : option (list ResultRow.t))
    (schemaMap : option (gmap string (gmap string bool)))
    (currentDatabase : option string) (st : State.t) : Exc Rendered :=
  idx ← newRowsIndex (State.newRowCount st);
  d ← data_guarded headers result (State.newRowCount st);
  match headers, result with
  | Some hs, Some rs =>
      let upd := updatableTables hs schemaMap currentDatabase in
      Return (Grid
        {| OptimizeTable.headers := headerMemo hs rs;
           OptimizeTable.data := d;
           OptimizeTable.renderCell := renderCell hs d upd;
           OptimizeTable.newRowsIndex := idx;
           OptimizeTable.removedRowsIndex :=
             relativeRemoveRowsIndex (State.removeRowsIndex st) d;
           OptimizeTable.selectedRowsIndex := State.selectedRowsIndex st |})
  | _, _ => Return NoResult
  end.

(** The fetched rows carry the identities of page [page]: the row at
    position [j] of [result] has [rowIndex = page * pageSize + j]. *)
Definition numbered_from_page (page pageSize : Z) (result : list ResultRow.t) : Prop :=
  ∀ (j : nat) (r : ResultRow.t),
    result !! j = Some r → ResultRow.rowIndex r = page * pageSize + Z.of_nat j.

Definition is_CellGet {Cell} (c : Call Cell) : bool :=
  match c with CellGet _ _ _ => true | _ => false end.

Definition is_CellDiscard {Cell} (c : Call Cell) : bool :=
  match c with CellDiscard _ => true | _ => false end.

(** * Properties *)

(** ** Arrays *)

Lemma new_Array_nonneg (n : Z) :
  0 ≤ n ≤ max_array_length →
  new_Array n = Return (replicate (Z.to_nat n) VUndefined).
Proof.
  intros Hn. unfold new_Array.
  destruct (Z.ltb_spec n 0) as [Hlt | _]; [lia |].
  destruct (Z.ltb_spec max_array_length n) as [Hlt | _]; [lia | reflexivity].
Qed.

Lemma new_Array_too_long (n : Z) :
  max_array_length < n → new_Array n = Throw RangeError.
Proof.
  intros Hn. unfold new_Array.
  destruct (Z.ltb_spec n 0) as [_ | _]; [reflexivity |].
  destruct (Z.ltb_spec max_array_length n) as [_ | Hge]; [reflexivity | lia].
Qed.


Lemma new_Array_negative (n : Z) : n < 0 → new_Array n = Throw RangeError.
Proof.
  intros Hn. unfold new_Array.
  destruct (Z.ltb_spec n 0) as [_ | Hge]; [reflexivity | lia].
Qed.

Lemma new_Array_Return (n : Z) (a : list JsValue) :
  new_Array n = Return a → 0 ≤ n ≤ max_array_length.
Proof.
  intros Ha.
  destruct (Z.lt_ge_cases n 0) as [Hlt | Hge].
  - rewrite new_Array_negative in Ha by exact Hlt. discriminate.
  - destruct (Z.lt_ge_cases max_array_length n) as [Hlong | Hok]; [| lia].
    rewrite new_Array_too_long in Ha by exact Hlong. discriminate.
Qed.

Lemma length_fill {A B} (v : B) (a : list A) : length (fill v a) = length a.
Proof. unfold fill. apply length_replicate. Qed.

Lemma length_map_idx {A B} (f : A → Z → B) (a : list A) :
  length (map_idx f a) = length a.
Proof. unfold map_idx. apply length_imap. Qed.

Lemma lookup_map_idx_fill {A B C} (f : B → Z → C) (v : B) (a : list A) (k : nat) :
  (k < length a)%nat →
  map_idx f (fill v a) !! k = Some (f v (Z.of_nat k)).
Proof.
  intros Hk. unfold map_idx, fill.
  rewrite list_lookup_imap, lookup_replicate_2 by exact Hk.
  reflexivity.
Qed.

Lemma array_get_lookup {A} (a : list A) (k : nat) :
  array_get a (Z.of_nat k) = a !! k.
Proof.
  unfold array_get.
  destruct (Z.ltb_spec (Z.of_nat k) 0) as [Hlt | _]; [lia |].
  by rewrite Nat2Z.id.
Qed.

Lemma array_get_past_end {A} (a : list A) (i : Z) :
  Z.of_nat (length a) ≤ i → array_get a i = None.
Proof.
  intros Hi. unfold array_get.
  destruct (Z.ltb_spec i 0) as [_ | Hge]; [reflexivity |].
  apply lookup_ge_None. lia.
Qed.

(** [findIndex] from a start offset: a match at relative position [k]
    with no earlier match is what the search returns. *)
Lemma findIndex_from_first {A} (p : A → bool) (a : list A) (i : Z) (k : nat) (x : A) :
  a !! k = Some x → p x = true →
  (∀ (j : nat) (y : A), (j < k)%nat → a !! j = Some y → p y = false) →
  findIndex_from p a i = i + Z.of_nat k.
Proof.
  revert i k. induction a as [| z a IH]; intros i k Hk Hp Hbefore.
  - discriminate.
  - destruct k as [| k]; simpl in *.
    + injection Hk as ->. rewrite Hp. lia.
    + rewrite (Hbefore 0%nat z) by (reflexivity || lia).
      rewrite (IH (i + 1) k Hk Hp).
      * lia.
      * intros j y Hj Hy. apply (Hbefore (S j) y); [lia | exact Hy].
Qed.

Lemma findIndex_from_none {A} (p : A → bool) (a : list A) (i : Z) :
  (∀ x, x ∈ a → p x = false) → findIndex_from p a i = -1.
Proof.
  revert i. induction a as [| z a IH]; intros i Hall; simpl.
  - reflexivity.
  - rewrite (Hall z) by apply list_elem_of_here.
    apply IH. intros x Hx. apply Hall. by apply list_elem_of_further.
Qed.

Lemma findIndex_first {A} (p : A → bool) (a : list A) (k : nat) (x : A) :
  a !! k = Some x → p x = true →
  (∀ (j : nat) (y : A), (j < k)%nat → a !! j = Some y → p y = false) →
  findIndex p a = Z.of_nat k.
Proof.
  intros Hk Hp Hbefore. unfold findIndex.
  by rewrite (findIndex_from_first p a 0 k x Hk Hp Hbefore).
Qed.

Lemma findIndex_none {A} (p : A → bool) (a : list A) :
  (∀ x, x ∈ a → p x = false) → findIndex p a = -1.
Proof. apply findIndex_from_none. Qed.

(** ** The display rows *)

Lemma unsetData_fold (headers : list QueryResultHeader) (m : gmap string JsValue)
    (k : string) :
  foldl (λ prev header, <[name header := VUndefined]> prev) m headers !! k =
    if bool_decide (k ∈ name <$> headers) then Some VUndefined else m !! k.
Proof.
  revert m. induction headers as [| h headers IH]; intros m; csimpl.
  - reflexivity.
  - rewrite IH.
    destruct (decide (k = name h)) as [-> | Hne].
    + rewrite lookup_insert_eq.
      rewrite (bool_decide_eq_true_2 (name h ∈ name h :: (name <$> headers)))
        by apply list_elem_of_here.
      by case_bool_decide.
    + rewrite lookup_insert_ne by congruence.
      apply (f_equal (λ b : bool, if b then Some VUndefined else m !! k)).
      apply bool_decide_ext. rewrite elem_of_cons.
      split; [auto | intros [Heq | Hin]; [contradiction | exact Hin]].
Qed.

Lemma unsetData_lookup (headers : list QueryResultHeader) (k : string) :
  unsetData headers !! k =
    if bool_decide (k ∈ name <$> headers) then Some VUndefined else None.
Proof. unfold unsetData. by rewrite unsetData_fold, lookup_empty. Qed.

Lemma unsetData_header (headers : list QueryResultHeader) (h : QueryResultHeader) :
  h ∈ headers → unsetData headers !! name h = Some VUndefined.
Proof.
  intros Hh. rewrite unsetData_lookup.
  rewrite bool_decide_eq_true_2; [reflexivity |].
  apply list_elem_of_fmap. by exists h.
Qed.


Lemma data_nonneg (headers : list QueryResultHeader) (result : list ResultRow.t) (n : Z) :
  0 ≤ n ≤ max_array_length → data headers result n = Return (newRowsOf headers n ++ result).
Proof. intros Hn. unfold data. by rewrite new_Array_nonneg. Qed.

Lemma data_Return (headers : list QueryResultHeader) (result : list ResultRow.t) (n : Z)
    (d : list ResultRow.t) :
  data headers result n = Return d →
  0 ≤ n ≤ max_array_length ∧ d = newRowsOf headers n ++ result.
Proof.
  intros Hd.
  assert (0 ≤ n ≤ max_array_length) as Hn.
  { unfold data in Hd. destruct (new_Array n) as [a | e] eqn:Ha; [| discriminate].
    by apply new_Array_Return in Ha. }
  rewrite data_nonneg in Hd by exact Hn. injection Hd as <-. done.
Qed.

Lemma length_newRowsOf (headers : list QueryResultHeader) (n : Z) :
  length (newRowsOf headers n) = Z.to_nat n.
Proof.
  unfold newRowsOf. by rewrite length_map_idx, length_fill, length_replicate.
Qed.

Lemma lookup_newRowsOf (headers : list QueryResultHeader) (n : Z) (k : nat) :
  (k < Z.to_nat n)%nat →
  newRowsOf headers n !! k =
    Some {| ResultRow.rowIndex := - (Z.of_nat k + 1); ResultRow.data := unsetData headers |}.
Proof.
  intros Hk. unfold newRowsOf.
  by rewrite lookup_map_idx_fill by (by rewrite length_replicate).
Qed.

Lemma newRowsOf_negative (headers : list QueryResultHeader) (n : Z) (r : ResultRow.t) :
  r ∈ newRowsOf headers n → - n ≤ ResultRow.rowIndex r < 0.
Proof.
  intros Hr. apply list_elem_of_lookup in Hr as [k Hk].
  assert (k < Z.to_nat n)%nat as Hlt.
  { rewrite <- (length_newRowsOf headers). by eapply lookup_lt_Some. }
  rewrite lookup_newRowsOf in Hk by exact Hlt.
  injection Hk as <-. simpl. lia.
Qed.

Lemma newRowsIndex_nonneg (n : Z) :
  0 ≤ n ≤ max_array_length → newRowsIndex n = Return (seqZ 0 n).
Proof.
  intros Hn. unfold newRowsIndex. rewrite new_Array_nonneg by exact Hn.
  simpl. f_equal. unfold map_idx, seqZ.
  rewrite (imap_seq_0 _ (λ j : nat, Z.of_nat j)).
  rewrite length_fill, length_replicate.
  apply list_fmap_ext. intros i x _. lia.
Qed.




(** Scenario A of the specification: three fetched rows and two new rows. *)
Example scenario_A_display_order :
  data [] Demo.result3 2 = Return (newRowsOf [] 2 ++ Demo.result3) ∧
  ResultRow.rowIndex <$> (newRowsOf [] 2 ++ Demo.result3) = [-1; -2; 0; 1; 2] ∧
  relativeRemoveRowsIndex [-2; 1] (newRowsOf [] 2 ++ Demo.result3)
    = [VNumber 1; VNumber 3].
Proof. repeat split; reflexivity. Qed.

(** ** Display positions of the removed rows *)

Lemma nullish_coalesce_number (n : Z) (b : JsValue) :
  nullish_coalesce (VNumber n) b = VNumber n.
Proof. reflexivity. Qed.

Lemma relativeRemoveRowsIndex_findIndex (removeRowsIndex : list Z) (d : list ResultRow.t) :
  relativeRemoveRowsIndex removeRowsIndex d =
    (λ i, VNumber (findIndex (λ r, ResultRow.rowIndex r =? i) d)) <$> removeRowsIndex.
Proof.
  unfold relativeRemoveRowsIndex. apply list_fmap_ext.
  intros k i _. apply nullish_coalesce_number.
Qed.

Lemma lookup_relativeRemoveRowsIndex (removeRowsIndex : list Z) (d : list ResultRow.t)
    (k : nat) (i : Z) :
  removeRowsIndex !! k = Some i →
  relativeRemoveRowsIndex removeRowsIndex d !! k =
    Some (VNumber (findIndex (λ r, ResultRow.rowIndex r =? i) d)).
Proof.
  intros Hk. rewrite relativeRemoveRowsIndex_findIndex, list_lookup_fmap, Hk.
  reflexivity.
Qed.

(** A synthetic identity is found at its own slot among the new rows. *)
Lemma findIndex_synthetic (headers : list QueryResultHeader) (result : list ResultRow.t)
    (n i : Z) :
  - n ≤ i < 0 →
  findIndex (λ r, ResultRow.rowIndex r =? i) (newRowsOf headers n ++ result) = - i - 1.
Proof.
  intros Hi.
  assert (Z.to_nat (- i - 1) < Z.to_nat n)%nat as Hlt by lia.
  rewrite (findIndex_first _ _ (Z.to_nat (- i - 1))
             {| ResultRow.rowIndex := - (Z.of_nat (Z.to_nat (- i - 1)) + 1);
                ResultRow.data := unsetData headers |}).
  - lia.
  - rewrite lookup_app_l by (rewrite length_newRowsOf; exact Hlt).
    by apply lookup_newRowsOf.
  - simpl. apply Z.eqb_eq. lia.
  - intros j y Hj Hy.
    rewrite lookup_app_l in Hy by (rewrite length_newRowsOf; lia).
    rewrite lookup_newRowsOf in Hy by lia.
    injection Hy as <-. simpl. apply Z.eqb_neq. lia.
Qed.

(** A fetched identity is found behind the new rows when the fetched rows
    are numbered by their position. *)
Lemma findIndex_fetched (headers : list QueryResultHeader) (result : list ResultRow.t)
    (n i : Z) :
  0 ≤ n → numbered_by_position result → 0 ≤ i < Z.of_nat (length result) →
  findIndex (λ r, ResultRow.rowIndex r =? i) (newRowsOf headers n ++ result) = n + i.
Proof.
  intros Hn Hnum Hi.
  destruct (lookup_lt_is_Some_2 result (Z.to_nat i)) as [x Hx]; [lia |].
  rewrite (findIndex_first _ _ (Z.to_nat n + Z.to_nat i)%nat x).
  - lia.
  - rewrite lookup_app_r by (rewrite length_newRowsOf; lia).
    rewrite length_newRowsOf.
    by replace (Z.to_nat n + Z.to_nat i - Z.to_nat n)%nat with (Z.to_nat i) by lia.
  - apply Z.eqb_eq. rewrite (Hnum _ _ Hx). lia.
  - intros j y Hj Hy. apply Z.eqb_neq.
    destruct (decide (j < Z.to_nat n)%nat) as [Hnew | Hold].
    + rewrite lookup_app_l in Hy by (rewrite length_newRowsOf; exact Hnew).
      apply list_elem_of_lookup_2, newRowsOf_negative in Hy. lia.
    + rewrite lookup_app_r in Hy by (rewrite length_newRowsOf; lia).
      rewrite length_newRowsOf in Hy. rewrite (Hnum _ _ Hy). lia.
Qed.

(** C4, as the specification states it, fails: the identity 104 that
    scenario B removes matches no row of a three-row result, and the
    position forwarded for it is [-1], not [displayIndexOf 104]. *)
Lemma C4_counterexample :
  ¬ (∀ (headers : list QueryResultHeader) (result : list ResultRow.t) (n : Z)
       (removeRowsIndex : list Z) (d : list ResultRow.t),
       data headers result n = Return d →
       relativeRemoveRowsIndex removeRowsIndex d =
         (λ i, VNumber (displayIndexOf_spec n i)) <$> removeRowsIndex).
Proof.
  intros H.
  specialize (H [] Demo.result3 1 [104] _ eq_refl).
  vm_compute in H. discriminate H.
Qed.

(** C4 (amended): for an identity [i] of the removed-row list with
    [-newRowCount ≤ i < length result], and, when [i] is not negative,
    fetched rows that carry their position as [rowIndex], the display
    position forwarded to the grid is [displayIndexOf i]:
    [newRowCount + i] for [i ≥ 0] and [-i - 1] for [i < 0]. *)
Theorem C4_removed_display_position (headers : list QueryResultHeader)
    (result : list ResultRow.t) (n : Z) (removeRowsIndex : list Z) (d : list ResultRow.t)
    (k : nat) (i : Z) :
  data headers result n = Return d →
  removeRowsIndex !! k = Some i →
  - n ≤ i < Z.of_nat (length result) →
  (0 ≤ i → numbered_by_position result) →
  relativeRemoveRowsIndex removeRowsIndex d !! k
    = Some (VNumber (displayIndexOf_spec n i)) ∧
  displayIndexOf_spec n i = (if decide (0 ≤ i) then n + i else - i - 1).
Proof.
  intros Hd Hk Hi Hnum.
  apply data_Return in Hd as [Hn ->].
  rewrite (lookup_relativeRemoveRowsIndex _ _ _ _ Hk).
  unfold displayIndexOf_spec.
  destruct (Z.leb_spec 0 i) as [Hpos | Hneg].
  - rewrite findIndex_fetched by (auto || lia).
    by rewrite decide_True by exact Hpos.
  - rewrite findIndex_synthetic by lia.
    by rewrite decide_False by lia.
Qed.

Lemma C4_removed_display_position_witness :
  relativeRemoveRowsIndex [-2; 1] (newRowsOf [] 2 ++ Demo.result3) !! 1%nat
    = Some (VNumber (displayIndexOf_spec 2 1)) ∧
  displayIndexOf_spec 2 1 = 3.
Proof.
  assert (numbered_by_position Demo.result3) as Hnum.
  { intros [| [| [| j]]] r; simpl; intros Hr; inversion Hr; reflexivity. }
  apply (C4_removed_display_position [] Demo.result3 2 [-2; 1]
           (newRowsOf [] 2 ++ Demo.result3) 1 1).
  - reflexivity.
  - reflexivity.
  - simpl. lia.
  - intros _. exact Hnum.
Defined.

(** C10: the position forwarded for a removed identity is always the
    number that [findIndex] returns, which is never nullish, so the
    fallback of [?? 0] is never taken; for an identity that matches no
    displayed row that number is [-1], not [0]. *)
Theorem C10_unmatched_removed_row (removeRowsIndex : list Z) (d : list ResultRow.t) :
  relativeRemoveRowsIndex removeRowsIndex d =
    (λ i, VNumber (findIndex (λ r, ResultRow.rowIndex r =? i) d)) <$> removeRowsIndex ∧
  (∀ i : Z, nullish (VNumber (findIndex (λ r, ResultRow.rowIndex r =? i) d)) = false) ∧
  (∀ (k : nat) (i : Z),
     removeRowsIndex !! k = Some i →
     (∀ r, r ∈ d → ResultRow.rowIndex r ≠ i) →
     relativeRemoveRowsIndex removeRowsIndex d !! k = Some (VNumber (-1)) ∧
     relativeRemoveRowsIndex removeRowsIndex d !! k ≠ Some (VNumber 0)).
Proof.
  split; [apply relativeRemoveRowsIndex_findIndex |].
  split; [reflexivity |].
  intros k i Hk Hnone.
  rewrite (lookup_relativeRemoveRowsIndex _ _ _ _ Hk).
  rewrite findIndex_none.
  - split; [reflexivity | discriminate].
  - intros r Hr. apply Z.eqb_neq. by apply Hnone.
Qed.

(** ** The cell render callback *)

Lemma renderCell_past_end (headers : list QueryResultHeader) (d : list ResultRow.t)
    (upd : gmap string bool) (y x : Z) :
  Z.of_nat (length d) ≤ y → renderCell headers d upd y x = Return Fragment.
Proof.
  intros Hy. unfold renderCell. by rewrite array_get_past_end by exact Hy.
Qed.

Lemma QueryResultTable_Return (headers : list QueryResultHeader)
    (result : list ResultRow.t) (schemaMap : option (gmap string (gmap string bool)))
    (currentDatabase : option string) (st : State.t) (p : OptimizeTable.props) :
  QueryResultTable headers result schemaMap currentDatabase st = Return p →
  data headers result (State.newRowCount st) = Return (OptimizeTable.data p) ∧
  OptimizeTable.renderCell p =
    renderCell headers (OptimizeTable.data p)
      (updatableTables headers schemaMap currentDatabase) ∧
  OptimizeTable.removedRowsIndex p =
    relativeRemoveRowsIndex (State.removeRowsIndex st) (OptimizeTable.data p).
Proof.
  unfold QueryResultTable, mbind, exc_mbind, exc_bind.
  destruct (newRowsIndex _) as [idx | e]; [| discriminate].
  destruct (data _ _ _) as [d | e]; [| discriminate].
  intros [= <-]. simpl. done.
Qed.

(** C8: when the grid asks for a row [y] at or beyond the length of the
    display rows, the render callback returns the empty fragment; it does
    not throw, whatever the column [x]. *)
Theorem C8_render_beyond_rows (headers : list QueryResultHeader)
    (result : list ResultRow.t) (schemaMap : option (gmap string (gmap string bool)))
    (currentDatabase : option string) (st : State.t) (p : OptimizeTable.props)
    (y x : Z) :
  QueryResultTable headers result schemaMap currentDatabase st = Return p →
  Z.of_nat (length (OptimizeTable.data p)) ≤ y →
  OptimizeTable.renderCell p y x = Return Fragment.
Proof.
  intros Hp Hy. apply QueryResultTable_Return in Hp as (_ & -> & _).
  by apply renderCell_past_end.
Qed.

Lemma C8_render_beyond_rows_witness :
  ∃ p : OptimizeTable.props,
    QueryResultTable [Demo.header "id" "number"] Demo.result3 None None
      (State.mk 2 [] []) = Return p ∧
    Z.of_nat (length (OptimizeTable.data p)) ≤ 5 ∧
    OptimizeTable.renderCell p 5 0 = Return Fragment.
Proof.
  eexists. split; [reflexivity |].
  assert (Z.of_nat 5 ≤ 5) as Hy by lia.
  split; [exact Hy |].
  apply (C8_render_beyond_rows [Demo.header "id" "number"] Demo.result3 None None
           (State.mk 2 [] []) _ 5 0 eq_refl Hy).
Defined.

(** ** Editability *)

Lemma updatableTables_missing (headers : list QueryResultHeader)
    (schemaMap : option (gmap string (gmap string bool)))
    (currentDatabase : option string) :
  schemaMap = None ∨ currentDatabase = None →
  updatableTables headers schemaMap currentDatabase = ∅.
Proof.
  unfold updatableTables. intros [-> | ->]; [| reflexivity].
  by destruct currentDatabase.
Qed.

Lemma updatableTables_empty_database (headers : list QueryResultHeader)
    (schemaMap : option (gmap string (gmap string bool))) :
  updatableTables headers schemaMap (Some "") = ∅.
Proof. unfold updatableTables. by destruct schemaMap. Qed.

(** The [readOnly] flag of a rendered cell. *)
Lemma renderCell_readOnly (headers : list QueryResultHeader) (d : list ResultRow.t)
    (upd : gmap string bool) (y x : Z) (c : TableCell.props) :
  renderCell headers d upd y x = Return (TableCellElement c) →
  TableCell.readOnly c
    = negb (updatable_entry_truthy upd (tableKey (TableCell.header c))).
Proof.
  unfold renderCell. intros Hr.
  destruct (array_get d y) as [r |]; [| discriminate].
  destruct (array_get headers x) as [h |]; [| discriminate].
  by injection Hr as <-.
Qed.

(** Without a schema map or a current database the map of updatable
    tables is the empty object, and a cell is read-only unless the key of
    its header names a member that the empty object inherits. *)
Lemma missing_schema_readOnly (headers : list QueryResultHeader)
    (d : list ResultRow.t) (schemaMap : option (gmap string (gmap string bool)))
    (currentDatabase : option string) (y x : Z) (c : TableCell.props) :
  schemaMap = None ∨ currentDatabase = None →
  renderCell headers d (updatableTables headers schemaMap currentDatabase) y x
    = Return (TableCellElement c) →
  TableCell.readOnly c
    = negb (bool_decide (tableKey (TableCell.header c) ∈ Object_prototype_keys)).
Proof.
  intros Hmiss Hr. rewrite (renderCell_readOnly _ _ _ _ _ _ Hr).
  rewrite (updatableTables_missing _ _ _ Hmiss).
  unfold updatable_entry_truthy. by rewrite lookup_empty.
Qed.

(** C9: no schema map and no current database, and a column that comes
    from a table named [constructor].  The map of updatable tables is the
    empty object, as the claim says, but [updatableTables['constructor']]
    is then the function that every object inherits, which is truthy: the
    cell is rendered editable, not read-only. *)
Theorem C9_inherited_member_is_editable :
  updatableTables Demo.constructorHeaders None None = ∅ ∧
  ∃ c : TableCell.props,
    renderCell Demo.constructorHeaders Demo.result3
      (updatableTables Demo.constructorHeaders None None) 0 0
      = Return (TableCellElement c) ∧
    tableKey (TableCell.header c) = "constructor" ∧
    TableCell.readOnly c = false.
Proof.
  split; [reflexivity |].
  eexists. split; [reflexivity |]. split; reflexivity.
Qed.

Example editable_only_with_updatable_table :
  let upd := updatableTables Demo.ordersHeaders (Some Demo.shopSchema) (Some "shop") in
  (∃ p, renderCell Demo.ordersHeaders Demo.result3 upd 0 0
          = Return (TableCellElement p) ∧ TableCell.readOnly p = false) ∧
  (∃ p, renderCell Demo.ordersHeaders Demo.result3 upd 0 1
          = Return (TableCellElement p) ∧ TableCell.readOnly p = true) ∧
  renderCell Demo.ordersHeaders Demo.result3 upd 0 2 = Throw TypeError.
Proof.
  repeat split; try (eexists; split; [reflexivity |]); vm_compute; reflexivity.
Qed.

(** ** The click handlers *)

Section HandlerFacts.
Context {World Cell : Type} `{!Collaborators World Cell}.

Implicit Types (w : World) (log : list (Call Cell)).

Lemma bind_run {A B} (m : Handler World Cell A) (k : A → Handler World Cell B)
    (s : World * list (Call Cell)) :
  (m ≫= k) s = k (m s).1 (m s).2.
Proof.
  unfold mbind, handler_bind, h_bind. by destruct (m s) as [a s'].
Qed.


Lemma removeRowArgument_cases (n page pageSize p : Z) :
  removeRowArgument n page pageSize p =
    if decide (p - n < 0) then p - n else (p - n) + page * pageSize.
Proof.
  unfold removeRowArgument.
  destruct (Z.ltb_spec (p - n) 0); [by rewrite decide_True | by rewrite decide_False by lia].
Qed.


(** For a display position [p] among the [n] new rows the handler passes
    [p - n]; the row shown at [p] has [rowIndex = -(p+1)].  The two agree
    only for the middle row of an odd number of new rows. *)
Lemma removeRowArgument_synthetic (n page pageSize p : Z) :
  0 ≤ p < n →
  removeRowArgument n page pageSize p = p - n ∧
  (removeRowArgument n page pageSize p = - (p + 1) ↔ n = 2 * p + 1).
Proof.
  intros Hp. rewrite removeRowArgument_cases.
  rewrite decide_True by lia. lia.
Qed.

(** *** Discard All Changes *)

Lemma discard_cell_eq (row : Z) (col : Change.col_t) w log :
  discard_cell row col (w, log) =
    (tt, (match cellManager_get row (Change.col col) w with
          | Some c => cell_discard c w
          | None => w
          end,
          log ++ lookup_calls (row, Change.col col,
                               cellManager_get row (Change.col col) w))).
Proof.
  unfold discard_cell. rewrite bind_run. simpl.
  destruct (cellManager_get row (Change.col col) w) as [c |]; simpl.
  - unfold lookup_calls. simpl. by rewrite <- app_assoc.
  - reflexivity.
Qed.

Lemma discard_cell_run (row : Z) (col : Change.col_t) w log :
  ∃ (found : option Cell) (w' : World),
    discard_cell row col (w, log) =
      (tt, (w', log ++ lookup_calls (row, Change.col col, found))).
Proof.
  rewrite discard_cell_eq. by eexists _, _.
Qed.

Lemma discard_row_run (row : Z) (cols : list Change.col_t) w log :
  ∃ (lookups : list (Z * Z * option Cell)) (w' : World),
    for_of cols (discard_cell row) (w, log) =
      (tt, (w', log ++ (lookups ≫= lookup_calls))) ∧
    fst <$> lookups = (λ col, (row, Change.col col)) <$> cols.
Proof.
  revert w log. induction cols as [| col cols IH]; intros w log; csimpl.
  - exists [], w. unfold h_ret. by rewrite app_nil_r.
  - rewrite bind_run.
    destruct (discard_cell_run row col w log) as (found & w1 & ->). simpl.
    destruct (IH w1 (log ++ lookup_calls (row, Change.col col, found)))
      as (lookups & w2 & -> & Hfst).
    exists ((row, Change.col col, found) :: lookups), w2. csimpl.
    rewrite Hfst. by rewrite <- app_assoc.
Qed.

Lemma discard_rows_run (rows : list Change.t) w log :
  ∃ (lookups : list (Z * Z * option Cell)) (w' : World),
    for_of rows (λ row, for_of (Change.cols row) (discard_cell (Change.row row)))
      (w, log) = (tt, (w', log ++ (lookups ≫= lookup_calls))) ∧
    fst <$> lookups = edits rows.
Proof.
  revert w log. induction rows as [| row rows IH]; intros w log; csimpl.
  - exists [], w. unfold h_ret. by rewrite app_nil_r.
  - rewrite bind_run.
    destruct (discard_row_run (Change.row row) (Change.cols row) w log)
      as (l1 & w1 & -> & Hfst1). simpl.
    destruct (IH w1 (log ++ (l1 ≫= lookup_calls))) as (l2 & w2 & -> & Hfst2).
    exists (l1 ++ l2), w2. split.
    + by rewrite bind_app, app_assoc.
    + unfold edits in *. csimpl. by rewrite fmap_app, Hfst1, Hfst2.
Qed.

Lemma lookup_calls_no_Clear (lookups : list (Z * Z * option Cell)) :
  filter (λ c, is_Clear c) (lookups ≫= lookup_calls) = [].
Proof.
  induction lookups as [| [[r c] [cell |]] lookups IH]; csimpl;
    [reflexivity | |]; unfold lookup_calls at 1; simpl.
  - rewrite !filter_cons_False by (simpl; tauto). exact IH.
  - rewrite !filter_cons_False by (simpl; tauto). exact IH.
Qed.

Lemma bind_fmap_list {A B C} (f : A → B) (g : B → list C) (l : list A) :
  (f <$> l) ≫= g = l ≫= λ x, g (f x).
Proof.
  induction l as [| x l IH]; csimpl; [reflexivity | by rewrite IH].
Qed.

(** When discarding a cell leaves the registry of mounted cells alone,
    the log of [Discard All Changes] is determined by the registry at the
    time of the click: a cell is discarded exactly when it is mounted. *)
Section StableRegistry.
Hypothesis discard_keeps_registry :
  ∀ (c : Cell) (row col : Z) w,
    cellManager_get row col (cell_discard c w) = cellManager_get row col w.

Lemma discard_row_stable (w0 : World) (row : Z) (cols : list Change.col_t) w log :
  same_registry w0 w →
  ∃ w' : World,
    same_registry w0 w' ∧
    for_of cols (discard_cell row) (w, log) =
      (tt, (w', log ++ (cols ≫= λ col,
              lookup_calls (row, Change.col col,
                            cellManager_get row (Change.col col) w0)))).
Proof.
  revert w log. induction cols as [| col cols IH]; intros w log Hw; csimpl.
  - exists w. split; [exact Hw |]. unfold h_ret. by rewrite app_nil_r.
  - rewrite bind_run, discard_cell_eq. simpl.
    rewrite (Hw row (Change.col col)).
    destruct (IH (match cellManager_get row (Change.col col) w0 with
                  | Some c => cell_discard c w
                  | None => w
                  end)
                (log ++ lookup_calls (row, Change.col col,
                                      cellManager_get row (Change.col col) w0)))
      as (w' & Hw' & ->).
    { destruct (cellManager_get row (Change.col col) w0) as [c |]; [| exact Hw].
      intros r k. by rewrite discard_keeps_registry. }
    exists w'. split; [exact Hw' |]. by rewrite <- app_assoc.
Qed.

Lemma discard_rows_stable (w0 : World) (rows : list Change.t) w log :
  same_registry w0 w →
  ∃ w' : World,
    same_registry w0 w' ∧
    for_of rows (λ row, for_of (Change.cols row) (discard_cell (Change.row row)))
      (w, log) =
      (tt, (w', log ++ (edits rows ≫= λ e,
              lookup_calls (e.1, e.2, cellManager_get e.1 e.2 w0)))).
Proof.
  revert w log. induction rows as [| row rows IH]; intros w log Hw; csimpl.
  - exists w. split; [exact Hw |]. unfold h_ret. by rewrite app_nil_r.
  - rewrite bind_run.
    destruct (discard_row_stable w0 (Change.row row) (Change.cols row) w log Hw)
      as (w1 & Hw1 & ->). simpl.
    edestruct (IH w1) as (w2 & Hw2 & Hrun); [exact Hw1 |].
    rewrite Hrun. clear Hrun.
    exists w2. split; [exact Hw2 |].
    unfold edits. csimpl. rewrite bind_app, <- app_assoc, bind_fmap_list.
    reflexivity.
Qed.

Corollary discard_all_changes_stable_registry w :
  calls onClick_discardAllChanges w =
    GetChanges ::
    (edits (collector_getChanges w) ≫= λ e,
       lookup_calls (e.1, e.2, cellManager_get e.1 e.2 w)) ++ [Clear].
Proof.
  unfold calls, run, onClick_discardAllChanges.
  rewrite bind_run. simpl. rewrite bind_run.
  destruct (discard_rows_stable w (collector_getChanges w) w [GetChanges])
    as (w' & _ & Hrun); [done |].
  rewrite Hrun. reflexivity.
Qed.
End StableRegistry.

(** The nested loops of the handler do what the flat reading of the
    specification does. *)
Lemma discard_edits_spec_app (es1 es2 : list (Z * Z)) w :
  discard_edits_spec (es1 ++ es2) w =
    ((discard_edits_spec es2 (discard_edits_spec es1 w).1).1,
     (discard_edits_spec es1 w).2
       ++ (discard_edits_spec es2 (discard_edits_spec es1 w).1).2).
Proof.
  revert w. induction es1 as [| [r c] es1 IH]; intros w; simpl.
  - by destruct (discard_edits_spec es2 w).
  - destruct (cellManager_get r c w) as [cell |]; rewrite IH;
      destruct (discard_edits_spec es1 _) as [w1 l1]; simpl;
      by destruct (discard_edits_spec es2 w1).
Qed.

Lemma discard_row_spec (row : Z) (cols : list Change.col_t) w log :
  for_of cols (discard_cell row) (w, log) =
    (tt,
     ((discard_edits_spec ((λ col, (row, Change.col col)) <$> cols) w).1,
      log ++ (discard_edits_spec ((λ col, (row, Change.col col)) <$> cols) w).2)).
Proof.
  revert w log. induction cols as [| col cols IH]; intros w log; csimpl.
  - unfold h_ret. by rewrite app_nil_r.
  - rewrite bind_run, discard_cell_eq. simpl. rewrite IH.
    destruct (cellManager_get row (Change.col col) w) as [c |]; simpl;
      destruct (discard_edits_spec _ _) as [w1 l1]; simpl;
      unfold lookup_calls; simpl; by rewrite <- app_assoc.
Qed.

Lemma discard_rows_spec (rows : list Change.t) w log :
  for_of rows (λ row, for_of (Change.cols row) (discard_cell (Change.row row)))
    (w, log) =
    (tt, ((discard_edits_spec (edits rows) w).1,
          log ++ (discard_edits_spec (edits rows) w).2)).
Proof.
  revert w log. induction rows as [| row rows IH]; intros w log.
  - simpl. unfold h_ret. by rewrite app_nil_r.
  - change (edits (row :: rows))
      with (((λ col, (Change.row row, Change.col col)) <$> Change.cols row)
              ++ edits rows).
    cbn [for_of]. rewrite bind_run, discard_row_spec. simpl. rewrite IH.
    rewrite discard_edits_spec_app. simpl. by rewrite <- app_assoc.
Qed.

(** The calls of the flat reading: one lookup per edit, in order, each
    followed by a discard exactly when it found a cell. *)
Lemma discard_edits_spec_lookups (es : list (Z * Z)) w :
  ∃ lookups : list (Z * Z * option Cell),
    fst <$> lookups = es ∧
    (discard_edits_spec es w).2 = lookups ≫= lookup_calls.
Proof.
  revert w. induction es as [| [r c] es IH]; intros w; simpl.
  - by exists [].
  - destruct (cellManager_get r c w) as [cell |] eqn:Hget.
    + destruct (IH (cell_discard cell w)) as (lookups & Hfst & Hlog).
      exists ((r, c, Some cell) :: lookups). csimpl. rewrite Hfst.
      split; [reflexivity |].
      destruct (discard_edits_spec es _) as [w1 l1]. simpl in *. by rewrite Hlog.
    + destruct (IH w) as (lookups & Hfst & Hlog).
      exists ((r, c, None) :: lookups). csimpl. rewrite Hfst.
      split; [reflexivity |].
      destruct (discard_edits_spec es _) as [w1 l1]. simpl in *. by rewrite Hlog.
Qed.

(** C5: [Discard All Changes] reads the pending edits once; for every
    pending edit, in order, it asks the cell manager for the cell of that
    (row, col) in the world as it is then, and calls [discard()] on the
    cell exactly when the cell manager returned one (an edit whose cell is
    not mounted is skipped); it then calls [collector.clear()], once, as
    its last call, on the world that the discards left.  When discarding
    leaves the registry of mounted cells alone, a cell is discarded
    exactly when it was mounted at the click. *)
Theorem C5_discard_all_changes w :
  let after := discard_edits_spec (edits (collector_getChanges w)) w in
  run onClick_discardAllChanges w =
    (collector_clear after.1, GetChanges :: after.2 ++ [Clear]) ∧
  (∃ lookups : list (Z * Z * option Cell),
     fst <$> lookups = edits (collector_getChanges w) ∧
     calls onClick_discardAllChanges w =
       GetChanges :: (lookups ≫= lookup_calls) ++ [Clear]) ∧
  length (filter (λ c, is_Clear c) (calls onClick_discardAllChanges w)) = 1%nat ∧
  ((∀ (c : Cell) (row col : Z) w',
      cellManager_get row col (cell_discard c w') = cellManager_get row col w') →
   calls onClick_discardAllChanges w =
     GetChanges ::
     (edits (collector_getChanges w) ≫= λ e,
        lookup_calls (e.1, e.2, cellManager_get e.1 e.2 w)) ++ [Clear]).
Proof.
  intros after.
  assert (run onClick_discardAllChanges w =
            (collector_clear after.1, GetChanges :: after.2 ++ [Clear])) as Hrun.
  { unfold run, onClick_discardAllChanges.
    rewrite bind_run. simpl. rewrite bind_run.
    rewrite discard_rows_spec. reflexivity. }
  destruct (discard_edits_spec_lookups (edits (collector_getChanges w)) w)
    as (lookups & Hfst & Hlog).
  fold after in Hlog.
  assert (calls onClick_discardAllChanges w =
            GetChanges :: (lookups ≫= lookup_calls) ++ [Clear]) as Hcalls.
  { unfold calls. rewrite Hrun. simpl. by rewrite Hlog. }
  split; [exact Hrun |].
  split; [by exists lookups |].
  split.
  - rewrite Hcalls. rewrite filter_cons_False by (simpl; tauto).
    rewrite filter_app, lookup_calls_no_Clear. reflexivity.
  - intros Hstable. by apply discard_all_changes_stable_registry.
Qed.

(** *** The context menu *)

(** C6: in the menu built for any state, [Remove selected rows] is
    disabled exactly when the selection is empty; [Insert NULL], [Copy]
    and [Paste] exactly when no cell has the focus; [Discard All Changes]
    exactly when the collector counts no change; and [Insert new row] is
    never disabled. *)
Theorem C6_menu_enablement w (selectedRowsIndex : list Z) (n page pageSize : Z) :
  let menu := contextMenu w selectedRowsIndex n page pageSize in
  MenuItem.text <$> menu =
    ["Insert new row"; "Remove selected rows"; "Insert NULL"; "Copy"; "Paste";
     "Discard All Changes"] ∧
  ∀ item, item ∈ menu →
    (MenuItem.text item = "Insert new row" → MenuItem.is_disabled item = false) ∧
    (MenuItem.text item = "Remove selected rows" →
       (MenuItem.is_disabled item = true ↔ selectedRowsIndex = [])) ∧
    (MenuItem.text item = "Insert NULL" ∨ MenuItem.text item = "Copy"
       ∨ MenuItem.text item = "Paste" →
       (MenuItem.is_disabled item = true ↔ cellManager_getFocusCell w = None)) ∧
    (MenuItem.text item = "Discard All Changes" →
       (MenuItem.is_disabled item = true ↔ collector_getChangesCount w = 0)).
Proof.
  simpl. split; [reflexivity |].
  assert (negb (bool_decide (is_Some (cellManager_getFocusCell w))) = true
          ↔ cellManager_getFocusCell w = None) as Hfocus.
  { rewrite negb_true_iff, bool_decide_eq_false, <- eq_None_not_Some. done. }
  intros item Hitem. unfold contextMenu in Hitem.
  repeat (apply elem_of_cons in Hitem as [-> | Hitem]);
    try (by apply elem_of_nil in Hitem);
    unfold MenuItem.is_disabled; simpl;
    (split; [| split; [| split]]);
    try (intros [Ht | [Ht | Ht]]; discriminate Ht);
    try (intros Ht; discriminate Ht); intros _.
  - reflexivity.
  - rewrite bool_decide_eq_true. apply length_zero_iff_nil.
  - exact Hfocus.
  - exact Hfocus.
  - exact Hfocus.
  - apply bool_decide_eq_true.
Qed.

End HandlerFacts.

(** The handlers on the sample collaborators: only the mounted cells of
    the pending edits are discarded. *)
Example discard_all_on_sample_world :
  calls onClick_discardAllChanges Demo.w0 =
    [ GetChanges;
      CellGet 0 0 None;
      CellGet 0 1 (Some (0, 1)); CellDiscard (0, 1);
      CellGet 7 0 (Some (7, 0)); CellDiscard (7, 0);
      Clear ].
Proof. vm_compute. reflexivity. Qed.

(** C2: two new rows are shown, the user selects display position 0 and
    removes it.  The row shown there has [rowIndex = -1], but the handler
    passes [0 - 2 = -2] to [collector.removeRow]; once the collector has
    recorded that identity, the position forwarded to the grid as removed
    is 1, the other new row. *)
Theorem C2_synthetic_removal_mismatch :
  let w := collector_createNewRow Demo.w0 in
  let st := handleSelectedRowsChange [0] (onChangeUpdate w State.initial) in
  let click :=
    onClick_removeSelectedRows (State.selectedRowsIndex st)
      (State.newRowCount st) 0 50 in
  State.newRowCount st = 2 ∧
  ResultRow.rowIndex <$> array_get (newRowsOf [] 2 ++ Demo.result3) 0 = Some (-1) ∧
  calls click w = [RemoveRow (-2)] ∧
  ∃ p : OptimizeTable.props,
    QueryResultTable [] Demo.result3 None None (onChangeUpdate (run click w).1 st)
      = Return p ∧
    OptimizeTable.data p = newRowsOf [] 2 ++ Demo.result3 ∧
    OptimizeTable.removedRowsIndex p = [VNumber 1].
Proof.
  repeat split. eexists. repeat split.
Qed.

(** ** The initial column width *)

Lemma foldl_Math_max_Fin (xs : list Z) (a : Z) :
  foldl (λ acc x, Math_max acc (Fin x)) (Fin a) xs = Fin (foldl Z.max a xs).
Proof.
  revert a. induction xs as [| x xs IH]; intros a; simpl; [reflexivity | apply IH].
Qed.

Lemma foldl_Zmax_bounds (xs : list Z) (a : Z) :
  a ≤ foldl Z.max a xs ∧
  (∀ x, x ∈ xs → x ≤ foldl Z.max a xs) ∧
  (foldl Z.max a xs = a ∨ foldl Z.max a xs ∈ xs).
Proof.
  revert a. induction xs as [| x xs IH]; intros a; simpl.
  - split; [lia |]. split; [| by left].
    intros x Hx. by apply elem_of_nil in Hx.
  - destruct (IH (Z.max a x)) as (Hge & Hall & Hin).
    split; [lia |]. split.
    + intros y Hy. apply elem_of_cons in Hy as [-> | Hy]; [lia | by apply Hall].
    + destruct Hin as [-> | Hin].
      * destruct (Z.max_spec a x) as [[_ ->] | [_ ->]].
        -- right. apply list_elem_of_here.
        -- by left.
      * right. by apply list_elem_of_further.
Qed.

Lemma Math_max_spread_greatest (xs : list Z) (L : Z) :
  is_greatest L xs → Math_max_spread xs = Fin L.
Proof.
  intros [Hin Hall]. destruct xs as [| x xs].
  - by apply elem_of_nil in Hin.
  - unfold Math_max_spread. simpl. rewrite foldl_Math_max_Fin. f_equal.
    destruct (foldl_Zmax_bounds xs x) as (Hge & Hle & Hmem).
    apply Z.le_antisymm.
    + apply Hall. destruct Hmem as [-> | Hmem];
        [apply list_elem_of_here | by apply list_elem_of_further].
    + apply elem_of_cons in Hin as [-> | Hin]; [exact Hge | by apply Hle].
Qed.

Lemma getInitialSizeByHeaderType_text (result : list ResultRow.t)
    (header : QueryResultHeader) :
  type header = "string" ∨ type header = "decimal" →
  getInitialSizeByHeaderType result header =
    Math_max (Fin 150)
      (Math_min (Fin 500)
         (num_times (Math_max_spread (sampleLength header <$> take 100 result)) 8)).
Proof.
  unfold getInitialSizeByHeaderType, slice0. by intros [-> | ->].
Qed.

(** C7: for a header of type string or decimal the initial width is
    [max(10 * name length, max(150, min(500, 8 * L)))], [L] being the
    greatest sampled length over the first at most 100 fetched rows (the
    length of a string value, 10 for any other value); a greatest length
    of 60 gives the type-derived width 480, and an empty result gives 150.
    A header of type number has the type-derived width 100, one of any
    other type 150. *)
Theorem C7_initial_width (result : list ResultRow.t) (header : QueryResultHeader) :
  let len := Z.of_nat (String.length (name header)) in
  let sample := sampleLength header <$> take 100 result in
  (type header = "string" ∨ type header = "decimal" →
     (∀ L : Z, is_greatest L sample →
        getInitialSizeByHeaderType result header
          = Fin (Z.max 150 (Z.min 500 (8 * L))) ∧
        initialSize result header
          = Fin (Z.max (10 * len) (Z.max 150 (Z.min 500 (8 * L))))) ∧
     (is_greatest 60 sample →
        getInitialSizeByHeaderType result header = Fin 480) ∧
     (result = [] → getInitialSizeByHeaderType result header = Fin 150)) ∧
  (type header = "number" →
     getInitialSizeByHeaderType result header = Fin 100) ∧
  (type header ≠ "number" → type header ≠ "string" → type header ≠ "decimal" →
     getInitialSizeByHeaderType result header = Fin 150) ∧
  initialSize result header =
    Math_max (Fin (10 * len)) (getInitialSizeByHeaderType result header).
Proof.
  intros len sample.
  assert (∀ L : Z, type header = "string" ∨ type header = "decimal" →
            is_greatest L sample →
            getInitialSizeByHeaderType result header
              = Fin (Z.max 150 (Z.min 500 (8 * L)))) as Htext.
  { intros L Hty HL. rewrite getInitialSizeByHeaderType_text by exact Hty.
    fold sample. rewrite (Math_max_spread_greatest _ _ HL). simpl.
    by rewrite (Z.mul_comm L 8). }
  split; [| split; [| split]].
  - intros Hty. split; [| split].
    + intros L HL. split; [by apply Htext |].
      unfold initialSize. rewrite (Htext L Hty HL). simpl.
      by rewrite (Z.mul_comm _ 10).
    + intros HL. by rewrite (Htext 60 Hty HL).
    + intros ->. by rewrite getInitialSizeByHeaderType_text by exact Hty.
  - intros Hty. unfold getInitialSizeByHeaderType. by rewrite Hty.
  - intros Hn Hs Hd. unfold getInitialSizeByHeaderType.
    by rewrite !bool_decide_eq_false_2 by assumption.
  - unfold initialSize. by rewrite (Z.mul_comm _ 10).
Qed.

Lemma C7_initial_width_witness :
  (type (Demo.header "title" "string") = "string"
     ∨ type (Demo.header "title" "string") = "decimal") ∧
  is_greatest 60
    (sampleLength (Demo.header "title" "string")
       <$> take 100 [Demo.textRow "short"; Demo.textRow Demo.sixty]) ∧
  getInitialSizeByHeaderType [Demo.textRow "short"; Demo.textRow Demo.sixty]
    (Demo.header "title" "string") = Fin 480.
Proof.
  assert (is_greatest 60
    (sampleLength (Demo.header "title" "string")
       <$> take 100 [Demo.textRow "short"; Demo.textRow Demo.sixty])) as HL.
  { split.
    - apply list_elem_of_further, list_elem_of_here.
    - intros x Hx.
      apply elem_of_cons in Hx as [-> | Hx]; [vm_compute; discriminate |].
      apply elem_of_cons in Hx as [-> | Hx]; [vm_compute; discriminate |].
      by apply elem_of_nil in Hx. }
  split; [by left |]. split; [exact HL |].
  destruct (C7_initial_width [Demo.textRow "short"; Demo.textRow Demo.sixty]
              (Demo.header "title" "string")) as [Htext _].
  destruct (Htext (or_introl eq_refl)) as (_ & H60 & _).
  exact (H60 HL).
Defined.

(** Scenario C with the header name taken into account, and the widths
    of the other header types. *)
Example scenario_C_widths :
  initialSize [Demo.textRow Demo.sixty] (Demo.header "title" "string") = Fin 480 ∧
  initialSize [] (Demo.header "title" "string") = Fin 150 ∧
  initialSize [Demo.textRow Demo.sixty] (Demo.header "title" "number") = Fin 100 ∧
  initialSize [Demo.textRow Demo.sixty] (Demo.header "title" "json") = Fin 150 ∧
  initialSize [] (Demo.header "a_rather_long_column_name" "number") = Fin 250.
Proof. vm_compute. repeat split. Qed.

(** * Further properties of the component *)

(** ** What one render hands to the grid *)

Lemma QueryResultTable_nonneg (headers : list QueryResultHeader)
    (result : list ResultRow.t) (schemaMap : option (gmap string (gmap string bool)))
    (currentDatabase : option string) (st : State.t) :
  0 ≤ State.newRowCount st ≤ max_array_length →
  QueryResultTable headers result schemaMap currentDatabase st =
    Return
      {| OptimizeTable.headers := headerMemo headers result;
         OptimizeTable.data := newRowsOf headers (State.newRowCount st) ++ result;
         OptimizeTable.renderCell :=
           renderCell headers (newRowsOf headers (State.newRowCount st) ++ result)
             (updatableTables headers schemaMap currentDatabase);
         OptimizeTable.newRowsIndex := seqZ 0 (State.newRowCount st);
         OptimizeTable.removedRowsIndex :=
           relativeRemoveRowsIndex (State.removeRowsIndex st)
             (newRowsOf headers (State.newRowCount st) ++ result);
         OptimizeTable.selectedRowsIndex := State.selectedRowsIndex st |}.
Proof.
  intros Hn. unfold QueryResultTable.
  rewrite newRowsIndex_nonneg, data_nonneg by exact Hn. reflexivity.
Qed.

Lemma QueryResultTable_Return_bounds (headers : list QueryResultHeader)
    (result : list ResultRow.t) (schemaMap : option (gmap string (gmap string bool)))
    (currentDatabase : option string) (st : State.t) (p : OptimizeTable.props) :
  QueryResultTable headers result schemaMap currentDatabase st = Return p →
  0 ≤ State.newRowCount st ≤ max_array_length.
Proof.
  intros Hp. apply QueryResultTable_Return in Hp as (Hd & _).
  by apply data_Return in Hd as [? _].
Qed.


(** X2: Every new-row position handed to the grid is a display position, and
    the row shown there is the synthetic row [-(p+1)]; no other display
    position below the new-row count is left out. *)
Theorem newRowsIndex_names_synthetic_rows (headers : list QueryResultHeader)
    (result : list ResultRow.t) (schemaMap : option (gmap string (gmap string bool)))
    (currentDatabase : option string) (st : State.t) (p : OptimizeTable.props) :
  QueryResultTable headers result schemaMap currentDatabase st = Return p →
  ∀ pos : Z,
    (pos ∈ OptimizeTable.newRowsIndex p ↔ 0 ≤ pos < State.newRowCount st) ∧
    (pos ∈ OptimizeTable.newRowsIndex p →
       ∃ r, array_get (OptimizeTable.data p) pos = Some r ∧
            ResultRow.rowIndex r = - (pos + 1) ∧
            ResultRow.data r = unsetData headers).
Proof.
  intros Hp pos.
  pose proof (QueryResultTable_Return_bounds _ _ _ _ _ _ Hp) as Hn.
  rewrite QueryResultTable_nonneg in Hp by exact Hn. injection Hp as <-. simpl.
  assert (pos ∈ seqZ 0 (State.newRowCount st) ↔ 0 ≤ pos < State.newRowCount st)
    as Hmem by (rewrite elem_of_seqZ; lia).
  split; [exact Hmem |].
  intros Hin. apply Hmem in Hin.
  exists {| ResultRow.rowIndex := - (pos + 1); ResultRow.data := unsetData headers |}.
  split; [| done].
  rewrite <- (Z2Nat.id pos) at 1 by lia. rewrite array_get_lookup.
  rewrite lookup_app_l by (rewrite length_newRowsOf; lia).
  rewrite lookup_newRowsOf by lia. by rewrite Z2Nat.id by lia.
Qed.

Lemma newRowsIndex_names_synthetic_rows_witness :
  ∃ p : OptimizeTable.props,
    QueryResultTable [Demo.header "id" "number"] Demo.result3 None None
      (State.mk 2 [] []) = Return p ∧
    (1 ∈ OptimizeTable.newRowsIndex p ↔ 0 ≤ 1 < 2).
Proof.
  eexists. split; [reflexivity |].
  apply (newRowsIndex_names_synthetic_rows [Demo.header "id" "number"]
           Demo.result3 None None (State.mk 2 [] []) _ eq_refl 1).
Defined.

(** ** The cells of the display rows *)

(** X3: A cell of a new row shows [undefined] and is bound to the identity
    [-(y+1)], in every column that exists. *)
Theorem renderCell_new_row (headers : list QueryResultHeader)
    (result : list ResultRow.t) (schemaMap : option (gmap string (gmap string bool)))
    (currentDatabase : option string) (st : State.t) (p : OptimizeTable.props)
    (y x : Z) (h : QueryResultHeader) :
  QueryResultTable headers result schemaMap currentDatabase st = Return p →
  0 ≤ y < State.newRowCount st →
  array_get headers x = Some h →
  ∃ c : TableCell.props,
    OptimizeTable.renderCell p y x = Return (TableCellElement c) ∧
    TableCell.row c = - (y + 1) ∧
    TableCell.key c = - (y + 1) ∧
    TableCell.value c = VUndefined ∧
    TableCell.col c = x ∧
    TableCell.header c = h.
Proof.
  intros Hp Hy Hx.
  pose proof (QueryResultTable_Return_bounds _ _ _ _ _ _ Hp) as Hn.
  rewrite QueryResultTable_nonneg in Hp by exact Hn. injection Hp as <-. simpl.
  unfold renderCell. rewrite Hx.
  replace (array_get (newRowsOf headers (State.newRowCount st) ++ result) y)
    with (Some {| ResultRow.rowIndex := - (Z.of_nat (Z.to_nat y) + 1);
                  ResultRow.data := unsetData headers |}).
  - eexists. split; [reflexivity |]. simpl.
    assert (obj_get (unsetData headers) (name h) = VUndefined) as Hv.
    { unfold obj_get. rewrite unsetData_header; [reflexivity |].
      apply list_elem_of_lookup. exists (Z.to_nat x).
      unfold array_get in Hx. by destruct (x <? 0). }
    repeat split; [lia | lia | exact Hv].
  - symmetry. rewrite <- (Z2Nat.id y) at 1 by lia. rewrite array_get_lookup.
    rewrite lookup_app_l by (rewrite length_newRowsOf; lia).
    apply lookup_newRowsOf. lia.
Qed.

Lemma renderCell_new_row_witness :
  ∃ (p : OptimizeTable.props) (c : TableCell.props),
    QueryResultTable Demo.ordersHeaders Demo.result3 None None
      (State.mk 2 [] []) = Return p ∧
    OptimizeTable.renderCell p 1 0 = Return (TableCellElement c) ∧
    TableCell.row c = -2.
Proof.
  eexists.
  destruct (renderCell_new_row Demo.ordersHeaders Demo.result3 None None
              (State.mk 2 [] []) _ 1 0 _ eq_refl ltac:(simpl; lia) eq_refl)
    as (c & Hc & Hrow & _).
  exists c. split; [reflexivity |]. split; [exact Hc | exact Hrow].
Defined.

(** X4: A cell of the fetched row [result[j]] is shown at display row
    [newRowCount + j]; it is bound to that row's [rowIndex] and shows the
    row's own value under the header name.  If the row has no such key,
    the cell shows [undefined], unless the header is named like a member
    that every object inherits ([toString], [constructor], ...): then it
    shows that member. *)
Theorem renderCell_fetched_row (headers : list QueryResultHeader)
    (result : list ResultRow.t) (schemaMap : option (gmap string (gmap string bool)))
    (currentDatabase : option string) (st : State.t) (p : OptimizeTable.props)
    (j : nat) (r : ResultRow.t) (x : Z) (h : QueryResultHeader) :
  QueryResultTable headers result schemaMap currentDatabase st = Return p →
  result !! j = Some r →
  array_get headers x = Some h →
  ∃ c : TableCell.props,
    OptimizeTable.renderCell p (State.newRowCount st + Z.of_nat j) x
      = Return (TableCellElement c) ∧
    TableCell.row c = ResultRow.rowIndex r ∧
    TableCell.key c = ResultRow.rowIndex r ∧
    TableCell.value c =
      match ResultRow.data r !! name h with
      | Some v => v
      | None => Object_prototype_get (name h)
      end ∧
    (ResultRow.data r !! name h = None →
       (name h ∉ Object_prototype_keys → TableCell.value c = VUndefined) ∧
       (name h ∈ Object_prototype_keys → TableCell.value c ≠ VUndefined)) ∧
    TableCell.col c = x ∧
    TableCell.header c = h.
Proof.
  intros Hp Hj Hx.
  pose proof (QueryResultTable_Return_bounds _ _ _ _ _ _ Hp) as Hn.
  rewrite QueryResultTable_nonneg in Hp by exact Hn. injection Hp as <-. simpl.
  unfold renderCell. rewrite Hx.
  replace (array_get (newRowsOf headers (State.newRowCount st) ++ result)
             (State.newRowCount st + Z.of_nat j)) with (Some r).
  - eexists. split; [reflexivity |]. simpl.
    split; [reflexivity |]. split; [reflexivity |].
    split; [reflexivity |]. split; [| done].
    intros Hnone. unfold obj_get, Object_prototype_get. rewrite Hnone.
    split; intros Hkey.
    + by rewrite bool_decide_eq_false_2.
    + rewrite bool_decide_eq_true_2 by exact Hkey. by case_bool_decide.
  - symmetry.
    replace (State.newRowCount st + Z.of_nat j)
      with (Z.of_nat (Z.to_nat (State.newRowCount st) + j)) by lia.
    rewrite array_get_lookup.
    rewrite lookup_app_r by (rewrite length_newRowsOf; lia).
    rewrite length_newRowsOf.
    by replace (Z.to_nat (State.newRowCount st) + j - Z.to_nat (State.newRowCount st))%nat
      with j by lia.
Qed.

Lemma renderCell_fetched_row_witness :
  ∃ (p : OptimizeTable.props) (c : TableCell.props),
    QueryResultTable Demo.ordersHeaders Demo.result3 None None
      (State.mk 2 [] []) = Return p ∧
    OptimizeTable.renderCell p (2 + Z.of_nat 1) 0 = Return (TableCellElement c) ∧
    TableCell.row c = 1 ∧
    TableCell.value c = VNumber 1.
Proof.
  eexists.
  destruct (renderCell_fetched_row Demo.ordersHeaders Demo.result3 None None
              (State.mk 2 [] []) _ 1 (Demo.fetched 1) 0 _ eq_refl eq_refl eq_refl)
    as (c & Hc & Hrow & _ & Hval & _).
  exists c. split; [reflexivity |]. split; [exact Hc |].
  split; [exact Hrow | exact Hval].
Defined.

(** A column named [toString] on rows that have no such key shows the
    inherited function, not [undefined]. *)
Example inherited_member_is_shown :
  ∃ c : TableCell.props,
    renderCell Demo.toStringHeaders Demo.result3 ∅ 0 0
      = Return (TableCellElement c) ∧
    TableCell.value c = VFunction.
Proof. eexists. split; reflexivity. Qed.

(** X5: The render callback throws only a TypeError, and exactly when the row
    exists but the column does not. *)
Theorem renderCell_throws_iff (headers : list QueryResultHeader)
    (d : list ResultRow.t) (upd : gmap string bool) (y x : Z) (e : JsError) :
  renderCell headers d upd y x = Throw e ↔
    e = TypeError ∧ is_Some (array_get d y) ∧ array_get headers x = None.
Proof.
  unfold renderCell.
  destruct (array_get d y) as [r |], (array_get headers x) as [h |]; split;
    try discriminate.
  - intros (_ & _ & Hx). discriminate.
  - intros [= <-]. done.
  - intros (-> & _ & _). reflexivity.
  - intros (_ & [r Hr] & _). discriminate.
  - intros (_ & [r Hr] & _). discriminate.
Qed.

(** X6: A rendered cell is editable only in two cases.  Either the
    schema map is present, the current database is present and not the
    empty string, and the map of updatable tables has an own truthy entry
    under the key of the header; or that map has no own entry under the
    key and the key names a member that every object inherits (a table
    named [constructor], [toString], ...). *)
Theorem editable_cell_requires (headers : list QueryResultHeader)
    (d : list ResultRow.t) (schemaMap : option (gmap string (gmap string bool)))
    (currentDatabase : option string) (y x : Z) (c : TableCell.props) :
  renderCell headers d (updatableTables headers schemaMap currentDatabase) y x
    = Return (TableCellElement c) →
  TableCell.readOnly c = false →
  (is_Some schemaMap ∧
   (∃ db, currentDatabase = Some db ∧ db ≠ "") ∧
   updatableTables headers schemaMap currentDatabase
     !! tableKey (TableCell.header c) = Some true) ∨
  (updatableTables headers schemaMap currentDatabase
     !! tableKey (TableCell.header c) = None ∧
   tableKey (TableCell.header c) ∈ Object_prototype_keys).
Proof.
  intros Hr Hro. rewrite (renderCell_readOnly _ _ _ _ _ _ Hr) in Hro.
  apply negb_false_iff in Hro. unfold updatable_entry_truthy in Hro.
  destruct (updatableTables headers schemaMap currentDatabase
              !! tableKey (TableCell.header c)) as [[|] |] eqn:Hupd;
    try discriminate.
  - left. split; [| split; [| reflexivity]].
    + destruct schemaMap; [done |].
      rewrite updatableTables_missing in Hupd by (by left).
      by rewrite lookup_empty in Hupd.
    + destruct currentDatabase as [db |].
      * exists db. split; [reflexivity |]. intros ->.
        rewrite updatableTables_empty_database in Hupd.
        by rewrite lookup_empty in Hupd.
      * rewrite updatableTables_missing in Hupd by (by right).
        by rewrite lookup_empty in Hupd.
  - right. split; [reflexivity |]. by apply bool_decide_eq_true in Hro.
Qed.

Lemma editable_cell_requires_witness :
  ∃ c : TableCell.props,
    renderCell Demo.ordersHeaders Demo.result3
      (updatableTables Demo.ordersHeaders (Some Demo.shopSchema) (Some "shop")) 0 0
      = Return (TableCellElement c) ∧
    TableCell.readOnly c = false ∧
    ((is_Some (Some Demo.shopSchema) ∧
      (∃ db, Some "shop" = Some db ∧ db ≠ "") ∧
      updatableTables Demo.ordersHeaders (Some Demo.shopSchema) (Some "shop")
        !! tableKey (TableCell.header c) = Some true) ∨
     (updatableTables Demo.ordersHeaders (Some Demo.shopSchema) (Some "shop")
        !! tableKey (TableCell.header c) = None ∧
      tableKey (TableCell.header c) ∈ Object_prototype_keys)).
Proof.
  eexists. split; [reflexivity |]. split; [reflexivity |].
  apply (editable_cell_requires Demo.ordersHeaders Demo.result3
           (Some Demo.shopSchema) (Some "shop") 0 0 _ eq_refl eq_refl).
Defined.

(** ** Removed rows: from the selection to the tombstones *)

Lemma findIndex_from_cases {A} (p : A → bool) (a : list A) (i : Z) :
  (findIndex_from p a i = -1 ∧ ∀ x, x ∈ a → p x = false) ∨
  (∃ (k : nat) (x : A),
     findIndex_from p a i = i + Z.of_nat k ∧ a !! k = Some x ∧ p x = true ∧
     ∀ (j : nat) (y : A), (j < k)%nat → a !! j = Some y → p y = false).
Proof.
  revert i. induction a as [| z a IH]; intros i; simpl.
  - left. split; [reflexivity |]. intros x Hx. by apply elem_of_nil in Hx.
  - destruct (p z) eqn:Hz.
    + right. exists 0%nat, z. repeat split; [lia | exact Hz |].
      intros j y Hj. lia.
    + destruct (IH (i + 1)) as [[Hnone Hall] | (k & x & Hk & Hx & Hp & Hbefore)].
      * left. split; [exact Hnone |].
        intros x Hx. apply elem_of_cons in Hx as [-> | Hx]; [exact Hz | by apply Hall].
      * right. exists (S k), x. repeat split; [lia | exact Hx | exact Hp |].
        intros [| j] y Hj Hy; simpl in Hy.
        -- by injection Hy as <-.
        -- apply (Hbefore j y); [lia | exact Hy].
Qed.

(** X7: The position forwarded for a removed identity [i] is a number between
    [-1] and the last display position.  It is [-1] exactly when no
    display row carries [i]; otherwise it is the first display position
    whose row carries [i]. *)
Theorem removed_position_sound (removeRowsIndex : list Z) (d : list ResultRow.t)
    (k : nat) (i : Z) :
  removeRowsIndex !! k = Some i →
  ∃ z : Z,
    relativeRemoveRowsIndex removeRowsIndex d !! k = Some (VNumber z) ∧
    -1 ≤ z < Z.of_nat (length d) ∧
    (z = -1 ↔ ∀ r, r ∈ d → ResultRow.rowIndex r ≠ i) ∧
    (0 ≤ z →
       ∃ r, array_get d z = Some r ∧ ResultRow.rowIndex r = i ∧
            ∀ (j : nat) (y : ResultRow.t),
              Z.of_nat j < z → d !! j = Some y → ResultRow.rowIndex y ≠ i).
Proof.
  intros Hk. eexists. split; [by apply lookup_relativeRemoveRowsIndex |].
  unfold findIndex.
  destruct (findIndex_from_cases (λ r, ResultRow.rowIndex r =? i) d 0)
    as [[-> Hall] | (m & x & -> & Hx & Hp & Hbefore)].
  - split; [lia |]. split.
    + split; [| reflexivity]. intros _ r Hr. by apply Z.eqb_neq, Hall.
    + lia.
  - pose proof (lookup_lt_Some _ _ _ Hx) as Hlt.
    apply Z.eqb_eq in Hp.
    split; [lia |]. split.
    + split; [lia |]. intros Hnone. exfalso.
      apply (Hnone x); [by eapply list_elem_of_lookup_2 | exact Hp].
    + intros _. exists x. rewrite Z.add_0_l, array_get_lookup.
      split; [exact Hx |]. split; [exact Hp |].
      intros j y Hj Hy. apply Z.eqb_neq. apply (Hbefore j y); [lia | exact Hy].
Qed.

Lemma removed_position_sound_witness :
  ∃ z : Z,
    relativeRemoveRowsIndex [-2; 1] (newRowsOf [] 2 ++ Demo.result3) !! 1%nat
      = Some (VNumber z) ∧
    -1 ≤ z < Z.of_nat (length (newRowsOf [] 2 ++ Demo.result3)).
Proof.
  destruct (removed_position_sound [-2; 1] (newRowsOf [] 2 ++ Demo.result3) 1 1
              eq_refl) as (z & Hz & Hrange & _).
  exists z. split; [exact Hz | exact Hrange].
Defined.

Lemma removeRowArgument_fetched (n page pageSize p : Z) :
  n ≤ p → removeRowArgument n page pageSize p = p - n + page * pageSize.
Proof.
  intros Hp. unfold removeRowArgument.
  destruct (Z.ltb_spec (p - n) 0); [lia | reflexivity].
Qed.

Lemma removeRowArgument_new (n page pageSize p : Z) :
  p < n → removeRowArgument n page pageSize p = p - n.
Proof.
  intros Hp. unfold removeRowArgument.
  destruct (Z.ltb_spec (p - n) 0); [reflexivity | lia].
Qed.

(** The display position of a fetched identity when the fetched rows are
    numbered from the start of their page. *)
Lemma findIndex_fetched_page (headers : list QueryResultHeader)
    (result : list ResultRow.t) (n off : Z) (j : nat) :
  0 ≤ n → 0 ≤ off →
  (∀ (m : nat) (r : ResultRow.t),
     result !! m = Some r → ResultRow.rowIndex r = off + Z.of_nat m) →
  (j < length result)%nat →
  findIndex (λ r, ResultRow.rowIndex r =? off + Z.of_nat j)
    (newRowsOf headers n ++ result) = n + Z.of_nat j.
Proof.
  intros Hn Hoff Hnum Hj.
  destruct (lookup_lt_is_Some_2 result j Hj) as [x Hx].
  rewrite (findIndex_first _ _ (Z.to_nat n + j)%nat x).
  - lia.
  - rewrite lookup_app_r by (rewrite length_newRowsOf; lia).
    rewrite length_newRowsOf.
    by replace (Z.to_nat n + j - Z.to_nat n)%nat with j by lia.
  - apply Z.eqb_eq. by rewrite (Hnum _ _ Hx).
  - intros m y Hm Hy. apply Z.eqb_neq.
    destruct (decide (m < Z.to_nat n)%nat) as [Hnew | Hold].
    + rewrite lookup_app_l in Hy by (rewrite length_newRowsOf; exact Hnew).
      apply list_elem_of_lookup_2, newRowsOf_negative in Hy. lia.
    + rewrite lookup_app_r in Hy by (rewrite length_newRowsOf; lia).
      rewrite length_newRowsOf in Hy. rewrite (Hnum _ _ Hy). lia.
Qed.

(** X8: Removing a fetched row and reading the tombstone back: when the
    fetched rows carry the identities of the current page
    ([rowIndex = page * pageSize + j], with [page * pageSize ≥ 0]), the
    identity passed for a fetched display position [p] is the [rowIndex]
    of the row shown at [p], and once the collector lists that identity as
    removed the position forwarded to the grid is [p] again. *)
Theorem remove_fetched_row_round_trip (headers : list QueryResultHeader)
    (result : list ResultRow.t) (n page pageSize p : Z) (d : list ResultRow.t) :
  data headers result n = Return d →
  0 ≤ page * pageSize →
  numbered_from_page page pageSize result →
  n ≤ p < n + Z.of_nat (length result) →
  ResultRow.rowIndex <$> array_get d p
    = Some (removeRowArgument n page pageSize p) ∧
  relativeRemoveRowsIndex [removeRowArgument n page pageSize p] d = [VNumber p].
Proof.
  intros Hd Hoff Hnum Hp. apply data_Return in Hd as [Hn ->].
  rewrite removeRowArgument_fetched by lia.
  set (j := Z.to_nat (p - n)).
  assert (j < length result)%nat as Hj by lia.
  replace (p - n + page * pageSize) with (page * pageSize + Z.of_nat j) by lia.
  split.
  - destruct (lookup_lt_is_Some_2 result j Hj) as [x Hx].
    replace p with (Z.of_nat (Z.to_nat n + j)) by lia.
    rewrite array_get_lookup.
    rewrite lookup_app_r by (rewrite length_newRowsOf; lia).
    rewrite length_newRowsOf.
    replace (Z.to_nat n + j - Z.to_nat n)%nat with j by lia.
    rewrite Hx. simpl. by rewrite (Hnum _ _ Hx).
  - rewrite relativeRemoveRowsIndex_findIndex. simpl.
    rewrite (findIndex_fetched_page headers result n (page * pageSize) j)
      by (assumption || lia).
    do 2 f_equal. lia.
Qed.

Lemma remove_fetched_row_round_trip_witness :
  relativeRemoveRowsIndex [removeRowArgument 2 0 50 3]
    (newRowsOf [] 2 ++ Demo.result3) = [VNumber 3].
Proof.
  assert (numbered_from_page 0 50 Demo.result3) as Hnum.
  { intros [| [| [| j]]] r; simpl; intros Hr; inversion Hr; reflexivity. }
  apply (remove_fetched_row_round_trip [] Demo.result3 2 0 50 3
           (newRowsOf [] 2 ++ Demo.result3) eq_refl);
    [simpl; lia | exact Hnum | simpl; lia].
Defined.

(** X9: Removing a new row and reading the tombstone back: for a display
    position [p] among [n] new rows the position forwarded to the grid is
    [n - 1 - p], the mirror image of [p] among the new rows. *)
Theorem remove_new_row_tombstone (headers : list QueryResultHeader)
    (result : list ResultRow.t) (n page pageSize p : Z) (d : list ResultRow.t) :
  data headers result n = Return d →
  0 ≤ p < n →
  relativeRemoveRowsIndex [removeRowArgument n page pageSize p] d
    = [VNumber (n - 1 - p)].
Proof.
  intros Hd Hp. apply data_Return in Hd as [Hn ->].
  rewrite removeRowArgument_new by lia.
  rewrite relativeRemoveRowsIndex_findIndex. simpl.
  rewrite findIndex_synthetic by lia.
  do 2 f_equal. lia.
Qed.

Lemma remove_new_row_tombstone_witness :
  relativeRemoveRowsIndex [removeRowArgument 3 0 50 0]
    (newRowsOf [] 3 ++ Demo.result3) = [VNumber (3 - 1 - 0)].
Proof.
  apply (remove_new_row_tombstone [] Demo.result3 3 0 50 0
           (newRowsOf [] 3 ++ Demo.result3) eq_refl).
  lia.
Defined.

(** X10: As long as the numbers involved are safe integers, on which the
    arithmetic of the source is exact (a new-row count [n ≥ 0], a page
    offset [page * pageSize ≥ 0], display positions [p ≥ 0] with
    [p + page * pageSize ≤ 2^53 - 1]), the identity passed to [removeRow]
    tells the kind of row by its sign (a new row gives an identity in
    [-n .. -1], a fetched row one at or above the page offset), and
    distinct display positions give distinct identities, in the same
    order. *)
Theorem removeRowArgument_order (n page pageSize p q : Z) :
  0 ≤ n → safe_integer n →
  0 ≤ page * pageSize →
  0 ≤ p → safe_integer (p + page * pageSize) →
  safe_integer (removeRowArgument n page pageSize p) ∧
  (p < n → - n ≤ removeRowArgument n page pageSize p < 0) ∧
  (n ≤ p → page * pageSize ≤ removeRowArgument n page pageSize p) ∧
  (p < q → safe_integer (q + page * pageSize) →
     removeRowArgument n page pageSize p < removeRowArgument n page pageSize q ∧
     safe_integer (removeRowArgument n page pageSize q)).
Proof.
  unfold safe_integer, removeRowArgument.
  intros Hn Hsn Hoff Hp Hsp.
  set (off := page * pageSize) in *.
  destruct (Z.ltb_spec (p - n) 0), (Z.ltb_spec (q - n) 0); lia.
Qed.

Lemma removeRowArgument_order_witness :
  removeRowArgument 1 2 50 0 < removeRowArgument 1 2 50 5 ∧
  safe_integer (removeRowArgument 1 2 50 5).
Proof.
  assert (safe_integer 1) as Hn by (unfold safe_integer; lia).
  assert (safe_integer (0 + 2 * 50)) as Hp by (unfold safe_integer; lia).
  assert (safe_integer (5 + 2 * 50)) as Hq by (unfold safe_integer; lia).
  destruct (removeRowArgument_order 1 2 50 0 5) as (_ & _ & _ & Hlt);
    [lia | exact Hn | lia | lia | exact Hp |].
  apply Hlt; [lia | exact Hq].
Defined.

(** ** Clicking the menu entries *)

Section ClickFacts.
Context {World Cell : Type} `{!Collaborators World Cell}.

Implicit Types (w : World) (log : list (Call Cell)).

(** X11: A disabled entry other than [Discard All Changes] does nothing when
    its handler runs all the same: it makes no call and leaves the
    collaborators as they are, in whatever world the click happens. *)
Theorem disabled_entry_is_noop w (selectedRowsIndex : list Z) (n page pageSize : Z)
    (item : MenuItem.t World Cell) :
  item ∈ contextMenu w selectedRowsIndex n page pageSize →
  MenuItem.text item ≠ "Discard All Changes" →
  MenuItem.is_disabled item = true →
  ∀ w' log, MenuItem.onClick item (w', log) = (tt, (w', log)).
Proof.
  intros Hitem Htext Hdis w' log. unfold contextMenu in Hitem.
  assert (∀ o : option Cell, negb (bool_decide (is_Some o)) = true → o = None)
    as Hnone.
  { intros o Ho. apply negb_true_iff, bool_decide_eq_false in Ho.
    by apply eq_None_not_Some. }
  repeat (apply elem_of_cons in Hitem as [-> | Hitem]);
    try (by apply elem_of_nil in Hitem);
    unfold MenuItem.is_disabled in Hdis; simpl in *.
  - discriminate.
  - apply bool_decide_eq_true, length_zero_iff_nil in Hdis as ->. reflexivity.
  - by rewrite (Hnone _ Hdis).
  - by rewrite (Hnone _ Hdis).
  - by rewrite (Hnone _ Hdis).
  - by destruct Htext.
Qed.


Lemma lookup_calls_count (lookups : list (Z * Z * option Cell)) :
  length (filter (λ c, is_CellGet c) (lookups ≫= lookup_calls)) = length lookups ∧
  (length (filter (λ c, is_CellDiscard c) (lookups ≫= lookup_calls))
     ≤ length lookups)%nat.
Proof.
  induction lookups as [| [[r c] [cell |]] lookups [IHget IHdis]]; csimpl;
    [done | |].
  - change (lookup_calls (r, c, Some cell))
      with [CellGet r c (Some cell); CellDiscard cell].
    simpl.
    repeat first [ rewrite filter_cons_True by (simpl; exact I)
                 | rewrite filter_cons_False by (simpl; tauto) ].
    simpl. lia.
  - change (lookup_calls (r, c, @None Cell)) with [@CellGet Cell r c None].
    simpl.
    repeat first [ rewrite filter_cons_True by (simpl; exact I)
                 | rewrite filter_cons_False by (simpl; tauto) ].
    simpl. lia.
Qed.

(** X13: [Discard All Changes] starts by reading the changes and ends by
    clearing the collector; in between it looks up one cell per pending
    edit and discards at most that many.  With no pending edit it still
    clears the collector. *)
Theorem discard_all_counts w :
  let log := calls onClick_discardAllChanges w in
  head log = Some GetChanges ∧
  last log = Some Clear ∧
  length (filter (λ c, is_CellGet c) log)
    = length (edits (collector_getChanges w)) ∧
  (length (filter (λ c, is_CellDiscard c) log)
     ≤ length (edits (collector_getChanges w)))%nat ∧
  (edits (collector_getChanges w) = [] → log = [GetChanges; Clear]).
Proof.
  unfold calls, run, onClick_discardAllChanges.
  rewrite bind_run. simpl. rewrite bind_run.
  destruct (discard_rows_run (collector_getChanges w) w [GetChanges])
    as (lookups & w' & -> & Hfst).
  simpl.
  assert (length lookups = length (edits (collector_getChanges w))) as Hlen.
  { by rewrite <- Hfst, length_fmap. }
  destruct (lookup_calls_count lookups) as [Hget Hdis].
  split; [reflexivity |].
  split; [by rewrite app_comm_cons, last_snoc |].
  rewrite !filter_cons_False by (simpl; tauto).
  rewrite !filter_app. simpl.
  rewrite !filter_cons_False by (simpl; tauto). simpl.
  rewrite !length_app. simpl.
  split; [lia |]. split; [lia |].
  intros Hnil. rewrite Hnil in Hlen.
  by destruct lookups.
Qed.

End ClickFacts.

Lemma disabled_entry_is_noop_witness :
  ∃ item : MenuItem.t Demo.World Demo.Cell,
    item ∈ contextMenu Demo.w0 [] 1 0 50 ∧
    MenuItem.text item = "Remove selected rows" ∧
    MenuItem.is_disabled item = true ∧
    MenuItem.onClick item (Demo.w0, []) = (tt, (Demo.w0, [])).
Proof.
  exists (MenuItem.mk "Remove selected rows" true (Some true) None true
            (onClick_removeSelectedRows [] 1 0 50)).
  assert (MenuItem.mk "Remove selected rows" true (Some true) None true
            (onClick_removeSelectedRows [] 1 0 50)
          ∈ contextMenu Demo.w0 [] 1 0 50) as Hin.
  { apply list_elem_of_further, list_elem_of_here. }
  split; [exact Hin |]. split; [reflexivity |]. split; [reflexivity |].
  apply (disabled_entry_is_noop Demo.w0 [] 1 0 50 _ Hin);
    [discriminate | reflexivity].
Defined.


(** ** Bounds of the initial column width *)

Lemma Math_max_spread_app (xs ys : list Z) :
  Math_max_spread (xs ++ ys) =
    foldl (λ acc x, Math_max acc (Fin x)) (Math_max_spread xs) ys.
Proof. unfold Math_max_spread. apply foldl_app. Qed.

Lemma Math_max_spread_nonempty (x : Z) (xs : list Z) :
  Math_max_spread (x :: xs) = Fin (foldl Z.max x xs).
Proof. unfold Math_max_spread. simpl. apply foldl_Math_max_Fin. Qed.

(** The width of a text column for a sample whose greatest length is [m]. *)
Lemma text_width_of_max (m : Z) :
  Math_max (Fin 150) (Math_min (Fin 500) (num_times (Fin m) 8))
    = Fin (Z.max 150 (Z.min 500 (m * 8))).
Proof. reflexivity. Qed.

Lemma getInitialSizeByHeaderType_cases (result : list ResultRow.t)
    (header : QueryResultHeader) :
  getInitialSizeByHeaderType result header = Fin 100 ∨
  getInitialSizeByHeaderType result header = Fin 150 ∨
  ((type header = "string" ∨ type header = "decimal") ∧
   ∃ m, Math_max_spread (sampleLength header <$> take 100 result) = Fin m ∧
        getInitialSizeByHeaderType result header
          = Fin (Z.max 150 (Z.min 500 (m * 8)))).
Proof.
  unfold getInitialSizeByHeaderType, slice0.
  case_bool_decide as Hn; [by left |].
  destruct (bool_decide (type header = "string") || bool_decide (type header = "decimal"))
    eqn:Ht; [| by right; left].
  apply orb_true_iff in Ht. rewrite !bool_decide_eq_true in Ht.
  destruct (Math_max_spread (sampleLength header <$> take 100 result)) as [| m] eqn:Hm.
  - right; left. reflexivity.
  - right; right. split; [exact Ht |]. exists m. split; [reflexivity |].
    apply text_width_of_max.
Qed.

(** X14: The initial width is always a finite number, also for an empty
    sample: it is at least 100 and at least ten times the length of the
    header name, and at most the larger of 500 and that multiple.  The
    type-derived part of a string or decimal column lies between 150 and
    500. *)
Theorem initialSize_bounds (result : list ResultRow.t) (header : QueryResultHeader) :
  let len := Z.of_nat (String.length (name header)) in
  ∃ width typed : Z,
    initialSize result header = Fin width ∧
    getInitialSizeByHeaderType result header = Fin typed ∧
    width = Z.max (len * 10) typed ∧
    100 ≤ typed ≤ 500 ∧
    (type header = "string" ∨ type header = "decimal" → 150 ≤ typed).
Proof.
  intros len. unfold initialSize. fold len.
  destruct (getInitialSizeByHeaderType_cases result header)
    as [H100 | [H150 | (Hty & m & _ & Hm)]].
  - exists (Z.max (len * 10) 100), 100. rewrite H100.
    repeat split; try lia.
    intros Hty. unfold getInitialSizeByHeaderType in H100.
    destruct Hty as [Hty | Hty]; rewrite Hty in H100; simpl in H100;
      destruct (Math_max_spread _); simpl in H100; injection H100; lia.
  - exists (Z.max (len * 10) 150), 150. rewrite H150. repeat split; lia.
  - eexists _, _. rewrite Hm. repeat split; lia.
Qed.

Lemma Math_max_spread_elem (xs : list Z) (x : Z) :
  x ∈ xs → ∃ m, Math_max_spread xs = Fin m ∧ x ≤ m.
Proof.
  intros Hx. destruct xs as [| z xs]; [by apply elem_of_nil in Hx |].
  rewrite Math_max_spread_nonempty.
  destruct (foldl_Zmax_bounds xs z) as (Hge & Hall & _).
  eexists. split; [reflexivity |].
  apply elem_of_cons in Hx as [-> | Hx]; [exact Hge | by apply Hall].
Qed.

Lemma Math_max_spread_upper (xs : list Z) (b : Z) :
  xs ≠ [] → (∀ x, x ∈ xs → x ≤ b) →
  ∃ m, Math_max_spread xs = Fin m ∧ m ≤ b.
Proof.
  intros Hne Hall. destruct xs as [| z xs]; [done |].
  rewrite Math_max_spread_nonempty.
  destruct (foldl_Zmax_bounds xs z) as (_ & _ & Hmem).
  eexists. split; [reflexivity |].
  destruct Hmem as [-> | Hmem].
  - apply Hall, list_elem_of_here.
  - by apply Hall, list_elem_of_further.
Qed.

(** X15: The two ends of the text width: one sampled string of 63 characters
    or more makes the column 500 wide, whatever else is sampled; when no
    sampled length exceeds 18 (short strings, or values that are not
    strings, which count 10), the type-derived width is the minimum 150. *)
Theorem text_width_thresholds (result : list ResultRow.t)
    (header : QueryResultHeader) :
  type header = "string" ∨ type header = "decimal" →
  let sample := sampleLength header <$> take 100 result in
  ((∃ l, l ∈ sample ∧ 63 ≤ l) →
     getInitialSizeByHeaderType result header = Fin 500) ∧
  ((∀ l, l ∈ sample → l ≤ 18) →
     getInitialSizeByHeaderType result header = Fin 150).
Proof.
  intros Hty sample.
  rewrite getInitialSizeByHeaderType_text by exact Hty. fold sample.
  split.
  - intros (l & Hl & Hbig).
    destruct (Math_max_spread_elem sample l Hl) as (m & -> & Hm).
    rewrite text_width_of_max. f_equal. lia.
  - intros Hsmall. destruct sample as [| z zs] eqn:Hs; [reflexivity |].
    destruct (Math_max_spread_upper (z :: zs) 18) as (m & -> & Hm);
      [done | exact Hsmall |].
    rewrite text_width_of_max. f_equal. lia.
Qed.

Lemma text_width_thresholds_witness :
  getInitialSizeByHeaderType
    [Demo.textRow "short"; Demo.textRow (Demo.sixty +:+ "abc")]
    (Demo.header "title" "string") = Fin 500.
Proof.
  apply (text_width_thresholds
           [Demo.textRow "short"; Demo.textRow (Demo.sixty +:+ "abc")]
           (Demo.header "title" "string") (or_introl eq_refl)).
  exists 63. split; [| lia].
  apply list_elem_of_further, list_elem_of_here.
Defined.

(** X16: Only the first 100 fetched rows are sampled: rows after them do not
    change any width. *)
Theorem width_ignores_rows_past_100 (result extra : list ResultRow.t)
    (header : QueryResultHeader) :
  (100 ≤ length result)%nat →
  initialSize (result ++ extra) header = initialSize result header.
Proof.
  intros Hlen. unfold initialSize, getInitialSizeByHeaderType, slice0.
  by rewrite take_app_le by exact Hlen.
Qed.

Lemma width_ignores_rows_past_100_witness :
  initialSize (replicate 100 (Demo.textRow "short") ++ [Demo.textRow Demo.sixty])
    (Demo.header "title" "string")
  = initialSize (replicate 100 (Demo.textRow "short")) (Demo.header "title" "string").
Proof.
  apply (width_ignores_rows_past_100 (replicate 100 (Demo.textRow "short"))
           [Demo.textRow Demo.sixty] (Demo.header "title" "string")).
  rewrite length_replicate. lia.
Defined.

(** The width of a text column as a function of the sample maximum. *)
Lemma text_width_value (a : num) :
  Math_max (Fin 150) (Math_min (Fin 500) (num_times a 8)) =
    Fin (match a with
         | NegInf => 150
         | Fin m => Z.max 150 (Z.min 500 (m * 8))
         end).
Proof. by destruct a. Qed.

Lemma Math_max_spread_app_ge (xs ys : list Z) (m : Z) :
  Math_max_spread xs = Fin m →
  ∃ m', Math_max_spread (xs ++ ys) = Fin m' ∧ m ≤ m'.
Proof.
  intros Hm. rewrite Math_max_spread_app, Hm, foldl_Math_max_Fin.
  destruct (foldl_Zmax_bounds ys m) as (Hge & _ & _).
  by eexists.
Qed.

(** X17: More fetched rows never make a column narrower. *)
Theorem width_grows_with_rows (result extra : list ResultRow.t)
    (header : QueryResultHeader) :
  ∃ a b : Z,
    initialSize result header = Fin a ∧
    initialSize (result ++ extra) header = Fin b ∧
    a ≤ b.
Proof.
  unfold initialSize, getInitialSizeByHeaderType, slice0.
  set (len := Z.of_nat (String.length (name header)) * 10).
  case_bool_decide as Hn; [by exists (Z.max len 100), (Z.max len 100) |].
  destruct (bool_decide (type header = "string") || bool_decide (type header = "decimal"));
    [| by exists (Z.max len 150), (Z.max len 150)].
  rewrite take_app, fmap_app, !text_width_value. simpl.
  destruct (Math_max_spread (sampleLength header <$> take 100 result))
    as [| m] eqn:Hm.
  - eexists _, _. split; [reflexivity |]. split; [reflexivity |].
    clear Hm.
    destruct (Math_max_spread (_ ++ _)) as [| m']; [lia |].
    pose proof (Z.le_max_l 150 (Z.min 500 (m' * 8))). lia.
  - destruct (Math_max_spread_app_ge _
                (sampleLength header <$> take (100 - length result) extra) _ Hm)
      as (m' & -> & Hle).
    eexists _, _. split; [reflexivity |]. split; [reflexivity |]. lia.
Qed.

(** ** Missing [headers] or [result] *)

Lemma data_guarded_present (hs : list QueryResultHeader) (rs : list ResultRow.t)
    (n : Z) :
  data_guarded (Some hs) (Some rs) n = data hs rs n.
Proof.
  unfold data_guarded, data. by destruct (new_Array n).
Qed.

(** With both properties present the guarded render is the render of the
    grid. *)
Lemma QueryResultTable_guarded_present (hs : list QueryResultHeader)
    (rs : list ResultRow.t) (schemaMap : option (gmap string (gmap string bool)))
    (currentDatabase : option string) (st : State.t) :
  QueryResultTable_guarded (Some hs) (Some rs) schemaMap currentDatabase st =
    match QueryResultTable hs rs schemaMap currentDatabase st with
    | Return p => Return (Grid p)
    | Throw e => Throw e
    end.
Proof.
  unfold QueryResultTable_guarded, QueryResultTable.
  rewrite data_guarded_present.
  destruct (newRowsIndex _) as [idx | e]; [| reflexivity]. simpl.
  by destruct (data hs rs _) as [d | e].
Qed.

(** X18: The [No result] placeholder is rendered exactly when [headers]
    is missing, [result] is present and there is no new row.  A missing
    [result] never reaches the placeholder: the render throws, a TypeError
    since the [data] memo spreads [result] before the guard is evaluated,
    or the RangeError of a new-row count that is no array length; so does
    a missing [headers] once there is a new row. *)
Theorem no_result_iff (headers : option (list QueryResultHeader))
    (result : option (list ResultRow.t))
    (schemaMap : option (gmap string (gmap string bool)))
    (currentDatabase : option string) (st : State.t) :
  (QueryResultTable_guarded headers result schemaMap currentDatabase st
     = Return NoResult
   ↔ headers = None ∧ is_Some result ∧ State.newRowCount st = 0) ∧
  (State.newRowCount st < 0 ∨ max_array_length < State.newRowCount st →
     QueryResultTable_guarded headers result schemaMap currentDatabase st
       = Throw RangeError) ∧
  (result = None → 0 ≤ State.newRowCount st ≤ max_array_length →
     QueryResultTable_guarded headers result schemaMap currentDatabase st
       = Throw TypeError) ∧
  (headers = None → 0 < State.newRowCount st ≤ max_array_length →
     QueryResultTable_guarded headers result schemaMap currentDatabase st
       = Throw TypeError).
Proof.
  assert (State.newRowCount st < 0 ∨ max_array_length < State.newRowCount st →
          QueryResultTable_guarded headers result schemaMap currentDatabase st
            = Throw RangeError) as Hrange.
  { intros Hbad. unfold QueryResultTable_guarded, newRowsIndex.
    destruct Hbad as [Hbad | Hbad];
      [by rewrite new_Array_negative by exact Hbad
      | by rewrite new_Array_too_long by exact Hbad]. }
  assert (0 < max_array_length) as Hmax by (unfold max_array_length; lia).
  destruct (decide (0 ≤ State.newRowCount st ≤ max_array_length)) as [Hn | Hbad].
  - unfold QueryResultTable_guarded, data_guarded, newRowsIndex.
    rewrite new_Array_nonneg by exact Hn. simpl.
    unfold fill. rewrite length_replicate.
    destruct (Z.to_nat (State.newRowCount st)) as [| k] eqn:Hk; simpl.
    + assert (State.newRowCount st = 0) as H0 by lia.
      destruct headers as [hs |], result as [rs |]; simpl;
        (split; [| split; [| split]]); try split; try discriminate; try done;
        try (intros (? & ? & ?); discriminate); try lia;
        try (intros (_ & [? ?] & _); discriminate).
    + assert (State.newRowCount st ≠ 0) as H0 by lia.
      destruct headers as [hs |], result as [rs |]; simpl;
        (split; [| split; [| split]]); try split; try discriminate; try done;
        try (intros (? & ? & ?); discriminate); try lia;
        try (intros (_ & [? ?] & _); discriminate);
        try (intros (_ & _ & ?); contradiction).
  - assert (State.newRowCount st < 0 ∨ max_array_length < State.newRowCount st)
      as Hout by lia.
    rewrite (Hrange Hout).
    split; [| split; [| split]]; try done; try lia.
    split; [discriminate |]. intros (_ & _ & H0). lia.
Qed.

Example guarded_render_samples :
  QueryResultTable_guarded None (Some Demo.result3) None None State.initial
    = Return NoResult ∧
  QueryResultTable_guarded (Some Demo.ordersHeaders) None None None State.initial
    = Throw TypeError ∧
  QueryResultTable_guarded None (Some Demo.result3) None None (State.mk 1 [] [])
    = Throw TypeError ∧
  (∃ p, QueryResultTable_guarded (Some Demo.ordersHeaders) (Some []) None None
          State.initial = Return (Grid p)).
Proof. repeat split. eexists. reflexivity. Qed.
